(** * DeepSeek-OCR model downloader: a shallow embedding of
      [download_models.py] and the properties of its resumable fetcher.

    The script talks to a remote server and to the local file system.  Both
    are made explicit: a [world] holds the files on disk and a trace of the
    observable actions (requests sent, files opened, sleeps, calls of the
    fetcher, messages), and the server is a function from the number of
    requests already sent and the request to what [requests.get] produces.
    Python exceptions are values of [exn]; every function of the script is a
    computation in the state-and-exception monad [M].  An interrupt of the
    operator (Ctrl-C) is what the server function or the stream of a reply
    produces: it is delivered while the process waits for the network. *)

From Stdlib Require Import ZArith Lia.
From stdpp Require Import base option list strings gmap.

Local Open Scope string_scope.
Local Open Scope list_scope.

(** ** Exceptions and results *)

(** The exceptions the script can meet.  All of them derive from Python's
    [Exception] except [KeyboardInterrupt], which derives from
    [BaseException] only and so escapes every [except Exception] clause. *)
Inductive exn : Type :=
| RequestException                (* requests: timeout, connection reset, ... *)
| JSONDecodeError                 (* response.json() on a malformed body *)
| TypeError
| KeyError
| ValueError                      (* int() on a malformed header *)
| OSError
| HTTPStatus (code : Z)           (* Exception(f"HTTP {status_code}") *)
| SizeMismatch                    (* Exception of the integrity check *)
| KeyboardInterrupt.

Definition is_Exception (e : exn) : bool :=
  match e with
  | KeyboardInterrupt => false
  | _ => true
  end.

Inductive result (A : Type) : Type :=
| Ok (a : A)
| Raise (e : exn).
Arguments Ok {A} a.
Arguments Raise {A} e.

Global Instance result_ret : MRet result := λ A a, Ok a.
Global Instance result_bind : MBind result := λ A B f r,
  match r with
  | Ok a => f a
  | Raise e => Raise e
  end.

(** ** JSON values, as [response.json()] returns them *)

(** Numbers are kept as integers: the script treats every number alike. *)
#[warnings="-register-all"]
Inductive json : Type :=
| JNull
| JBool (b : bool)
| JNum (z : Z)
| JStr (s : string)
| JArr (items : list json)
| JObj (fields : list (string * json)).

(** [sub in s] on Python strings. *)
Fixpoint is_substring (sub s : string) : bool :=
  String.prefix sub s ||
  match s with
  | EmptyString => false
  | String _ s' => is_substring sub s'
  end.

Definition is_JStr (key : string) (v : json) : bool :=
  match v with
  | JStr s => bool_decide (s = key)
  | _ => false
  end.

Fixpoint assoc (key : string) (fields : list (string * json)) : option json :=
  match fields with
  | [] => None
  | (k, v) :: rest => if bool_decide (k = key) then Some v else assoc key rest
  end.

(** [key in v]: key membership on a dict, element membership on a list,
    substring test on a string, [TypeError] on anything else. *)
Definition py_in (key : string) (v : json) : result bool :=
  match v with
  | JObj fields => Ok (bool_decide (is_Some (assoc key fields)))
  | JArr items => Ok (existsb (is_JStr key) items)
  | JStr s => Ok (is_substring key s)
  | _ => Raise TypeError
  end.

(** [v[key]] with a string key: only a dict can be indexed that way. *)
Definition py_getitem (v : json) (key : string) : result json :=
  match v with
  | JObj fields =>
      match assoc key fields with
      | Some x => Ok x
      | None => Raise KeyError
      end
  | _ => Raise TypeError
  end.

(** ** Requests, responses and the world *)

Abbreviation path := string (only parsing).

(** The request headers are the fixed User-Agent and, when resuming,
    [Range: bytes=<pos>-]. *)
Record request : Type := Request {
  req_url : string;
  req_range : option Z
}.

(** The [content-length] header as [int()] sees it. *)
Inductive content_length : Type :=
| CLAbsent
| CLInt (n : Z)
| CLMalformed.

Record response : Type := Response {
  status_code : Z;
  resp_content_length : content_length;
  (* what response.json() gives *)
  resp_json : result json;
  (* what iter_content yields, and the exception that ends the stream early *)
  resp_chunks : list (list Byte.byte);
  resp_stream_error : option exn
}.

Inductive mode : Type := AB | WB.

Inductive message : Type :=
| MsgSkipped (filename : string)
| MsgCompleted (filename : string)
| MsgCancelled
| MsgErrorOccurred (e : exn).

Inductive event : Type :=
| Get (r : request)
| Open (p : path) (m : mode)
| Sleep (secs : Z)
| Call_download_file (url : string) (destination : path)
| Print (m : message).

Record world : Type := World {
  fs : gmap string (list Byte.byte);
  sent : nat;
  trace : list event
}.

Definition M (A : Type) : Type := world → result A * world.

Global Instance M_ret : MRet M := λ A a w, (Ok a, w).
Global Instance M_bind : MBind M := λ A B f c w,
  match c w with
  | (Ok a, w') => f a w'
  | (Raise e, w') => (Raise e, w')
  end.

Definition raise {A} (e : exn) : M A := λ w, (Raise e, w).

Definition lift {A} (r : result A) : M A := λ w, (r, w).

(** [try: c  except Exception as e: h e]. *)
Definition try_except {A} (c : M A) (h : exn → M A) : M A := λ w,
  match c w with
  | (Raise e, w') => if is_Exception e then h e w' else (Raise e, w')
  | ok => ok
  end.

Definition emit (e : event) : M unit := λ w,
  (Ok tt, {| fs := fs w; sent := sent w; trace := trace w ++ [e] |}).

Definition print (m : message) : M unit := emit (Print m).

Definition MODELSCOPE_API : string :=
  "https://www.modelscope.cn/api/v1/models/deepseek-ai/DeepSeek-OCR/repo/files".

Definition REQUIRED_FILES : list string :=
  [ "config.json";
    "configuration.json";
    "preprocessor_config.json";
    "tokenizer_config.json";
    "tokenizer.json";
    "special_tokens_map.json";
    "vocab.json";
    "merges.txt";
    "model.safetensors";
    "pytorch_model.bin" ].

(** [[item['Path'] for item in items if 'Path' in item]]: the first item on
    which the test or the indexing raises aborts the comprehension. *)
Fixpoint paths_of (items : list json) : result (list json) :=
  match items with
  | [] => Ok []
  | item :: rest =>
      has ← py_in "Path" item;
      if has : bool then
        p ← py_getitem item "Path";
        ps ← paths_of rest;
        Ok (p :: ps)
      else paths_of rest
  end.

(** ** Scenarios

    Concrete servers and worlds on which the properties below are run. *)

Definition no_files : world := {| fs := ∅; sent := 0; trace := [] |}.

(** The remote [model.bin], ten bytes long. *)
Definition remote_file : list Byte.byte :=
  [Byte.x00; Byte.x01; Byte.x02; Byte.x03; Byte.x04;
   Byte.x05; Byte.x06; Byte.x07; Byte.x08; Byte.x09].

Definition model_path : path := "models/model.bin".

Definition model_url : string :=
  "https://www.modelscope.cn/api/v1/models/deepseek-ai/DeepSeek-OCR/repo?Revision=master&FilePath=model.bin".

(** A run that was cut after four bytes of [model.bin]. *)
Definition partial_world : world :=
  {| fs := {[ model_path := take 4 remote_file ]}; sent := 0; trace := [] |}.

(** Plain relative names under [./models]. *)
Definition posix_join (filename : string) : path :=
  ("models/" ++ filename)%string.

(** A server that honours ranges: 206 and the rest of the file from the
    requested offset, 200 and the whole file without Range. *)
Definition serve_range (full : list Byte.byte) (r : request) : response :=
  match req_range r with
  | Some pos =>
      {| status_code := 206;
         resp_content_length := CLInt (Z.of_nat (length full) - pos);
         resp_json := Raise JSONDecodeError;
         resp_chunks := [drop (Z.to_nat pos) full];
         resp_stream_error := None |}
  | None =>
      {| status_code := 200;
         resp_content_length := CLInt (Z.of_nat (length full));
         resp_json := Raise JSONDecodeError;
         resp_chunks := [full];
         resp_stream_error := None |}
  end.

(** The connection drops after [k] bytes of the body. *)
Definition cut (k : nat) (r : response) : response :=
  {| status_code := status_code r;
     resp_content_length := resp_content_length r;
     resp_json := resp_json r;
     resp_chunks := [take k (mjoin (resp_chunks r))];
     resp_stream_error := Some RequestException |}.

Definition range_server (n : nat) (r : request) : result response :=
  Ok (serve_range remote_file r).

(** Honours ranges, but the first transfer is cut after three bytes. *)
Definition flaky_server (n : nat) (r : request) : result response :=
  match n with
  | 0 => Ok (cut 3 (serve_range remote_file r))
  | _ => Ok (serve_range remote_file r)
  end.

(** Ignores Range and always sends the whole file with status 200. *)
Definition ignoring_server (n : nat) (r : request) : result response :=
  Ok (serve_range remote_file (Request (req_url r) None)).



Definition failing_server (n : nat) (r : request) : result response :=
  Raise RequestException.

(** The operator presses Ctrl-C while the request is under way. *)
Definition interrupted_server (n : nat) (r : request) : result response :=
  Raise KeyboardInterrupt.

Definition listing (names : list string) : response :=
  {| status_code := 200;
     resp_content_length := CLAbsent;
     resp_json :=
       Ok (JObj [("Data", JArr ((λ name, JObj [("Path", JStr name)]) <$> names))]);
     resp_chunks := [];
     resp_stream_error := None |}.

(** Lists [model.bin] and serves it, honouring ranges. *)
Definition mirror_server (n : nat) (r : request) : result response :=
  if String.eqb (req_url r) MODELSCOPE_API then Ok (listing ["model.bin"])
  else Ok (serve_range remote_file r).

(** Lists [model.bin], but every transfer of it is cut after three bytes. *)
Definition cutting_server (n : nat) (r : request) : result response :=
  if String.eqb (req_url r) MODELSCOPE_API then Ok (listing ["model.bin"])
  else Ok (cut 3 (serve_range remote_file r)).

(** Lists [a.json] and [b.bin] and then fails every download. *)
Definition example_server (n : nat) (r : request) : result response :=
  if String.eqb (req_url r) MODELSCOPE_API then Ok (listing ["a.json"; "b.bin"])
  else Raise RequestException.

(** A listing whose only entry has a number where the path should be. *)
Definition odd_listing_server (n : nat) (r : request) : result response :=
  Ok {| status_code := 200;
        resp_content_length := CLAbsent;
        resp_json := Ok (JObj [("Data", JArr [JObj [("Path", JNum 5)]])]);
        resp_chunks := [];
        resp_stream_error := None |}.

Definition example_world : world :=
  {| fs := {[ "models/a.json" := [Byte.x7b; Byte.x7d] ]};
     sent := 0; trace := [] |}.

(** A listing with an entry that has no path between two that have one. *)
Definition gappy_listing_server (n : nat) (r : request) : result response :=
  Ok {| status_code := 200;
        resp_content_length := CLAbsent;
        resp_json :=
          Ok (JObj [("Data", JArr [JObj [("Path", JStr "a.json")];
                                   JObj [("Name", JStr "notes")];
                                   JObj [("Path", JStr "b.bin")]])]);
        resp_chunks := [];
        resp_stream_error := None |}.

(** A listing with a number among its items. *)
Definition spoiled_listing_server (n : nat) (r : request) : result response :=
  Ok {| status_code := 200;
        resp_content_length := CLAbsent;
        resp_json :=
          Ok (JObj [("Data", JArr [JObj [("Path", JStr "a.json")]; JNum 7])]);
        resp_chunks := [];
        resp_stream_error := None |}.

(** Answers every request with 404. *)
Definition not_found_server (n : nat) (r : request) : result response :=
  Ok {| status_code := 404;
        resp_content_length := CLInt 9;
        resp_json := Raise JSONDecodeError;
        resp_chunks := [[Byte.x6e; Byte.x6f]];
        resp_stream_error := None |}.

(** Lists [model.bin] twice and serves it. *)
Definition twice_server (n : nat) (r : request) : result response :=
  if String.eqb (req_url r) MODELSCOPE_API
  then Ok (listing ["model.bin"; "model.bin"])
  else Ok (serve_range remote_file r).

(** [model.bin] exists and is empty. *)
Definition empty_file_world : world :=
  {| fs := {[ model_path := [] ]}; sent := 0; trace := [] |}.

(** Refuses the first range with 416, drops the connection on the second
    request and honours ranges from then on. *)
Definition moody_server (n : nat) (r : request) : result response :=
  match n with
  | 0 => Ok {| status_code := 416;
               resp_content_length := CLInt 0;
               resp_json := Raise JSONDecodeError;
               resp_chunks := [];
               resp_stream_error := None |}
  | 1 => Raise RequestException
  | _ => Ok (serve_range remote_file r)
  end.


(** ** The parts of the script that touch neither disk nor network *)

(** [int(response.headers.get('content-length', 0))]. *)
Definition int_content_length (r : response) : result Z :=
  match resp_content_length r with
  | CLAbsent => Ok 0%Z
  | CLInt n => Ok n
  | CLMalformed => Raise ValueError
  end.

Definition total_size_of (r : response) (initial_pos : Z) : result Z :=
  n ← int_content_length r; Ok (n + initial_pos)%Z.

Definition mode_of (r : response) (initial_pos : Z) : mode :=
  if (0 <? initial_pos)%Z && (status_code r =? 206)%Z then AB else WB.

(** The server ignored or refused the range. *)
Definition range_rejected (r : response) (initial_pos : Z) : bool :=
  (status_code r =? 416)%Z || (status_code r =? 200)%Z && (0 <? initial_pos)%Z.

Definition download_url (filename : string) : string :=
  ("https://www.modelscope.cn/api/v1/models/deepseek-ai/DeepSeek-OCR/repo?Revision=master&FilePath="
   ++ filename)%string.

(** What the loop does with one file name. *)
Inductive disposition : Type := Present | Fetched | Failed.

Record tally : Type := Tally {
  success_count : nat;
  failed_files : list json
}.

Definition count (t : tally) (filename : json) (d : disposition) : tally :=
  match d with
  | Present | Fetched =>
      {| success_count := S (success_count t); failed_files := failed_files t |}
  | Failed =>
      {| success_count := success_count t;
         failed_files := failed_files t ++ [filename] |}
  end.

Definition succeeded (d : disposition) : bool :=
  match d with
  | Failed => false
  | _ => true
  end.

(** * The script over the calls of the operating system

    Nothing is assumed of the disk here.  Its state is any type [D], and
    each call the script makes on it is a function that returns or raises:
    [mkdir] on a path whose parent is a regular file, [exists] on a name
    that is too long, [open] on a directory, two paths that name one file
    are all behaviours of some [calls D].  The script is transcribed over
    these calls line by line.  The section [Downloader] after this module is
    the same script on the plainest of disks, a map from path strings to
    contents on which every directory can be created, every path names its
    own file and no call fails ([plain] below). *)
Module Os.

Record calls (D : Type) : Type := Calls {
  (* models_dir.mkdir(exist_ok=True) *)
  mkdir_models : D → result unit * D;
  (* destination.parent.mkdir(parents=True, exist_ok=True) *)
  mkdir_parents : path → D → result unit * D;
  (* destination.exists() *)
  path_exists : path → D → result bool;
  (* destination.stat().st_size *)
  st_size : path → D → result Z;
  (* open(destination, mode) *)
  open_file : path → mode → D → result unit * D;
  (* f.write(chunk), unbuffered *)
  f_write : path → list Byte.byte → D → result unit * D
}.
Arguments Calls {D} _ _ _ _ _ _.
Arguments mkdir_models {D} _ _.
Arguments mkdir_parents {D} _ _ _.
Arguments path_exists {D} _ _ _.
Arguments st_size {D} _ _ _.
Arguments open_file {D} _ _ _ _.
Arguments f_write {D} _ _ _ _.

Record world (D : Type) : Type := World {
  disk : D;
  sent : nat;
  trace : list event
}.
Arguments World {D} _ _ _.
Arguments disk {D} _.
Arguments sent {D} _.
Arguments trace {D} _.

Definition M (D A : Type) : Type := world D → result A * world D.

Global Instance M_ret D : MRet (M D) := λ A a w, (Ok a, w).
Global Instance M_bind D : MBind (M D) := λ A B f c w,
  match c w with
  | (Ok a, w') => f a w'
  | (Raise e, w') => (Raise e, w')
  end.

Section Script.

Context {D : Type}.

Variable serve : nat → request → result response.
Variable models_dir_join : string → path.
Variable os : calls D.

Definition raise {A} (e : exn) : M D A := λ w, (Raise e, w).

Definition lift {A} (r : result A) : M D A := λ w, (r, w).

Definition try_except {A} (c : M D A) (h : exn → M D A) : M D A := λ w,
  match c w with
  | (Raise e, w') => if is_Exception e then h e w' else (Raise e, w')
  | ok => ok
  end.

Definition emit (e : event) : M D unit := λ w,
  (Ok tt, {| disk := disk w; sent := sent w; trace := trace w ++ [e] |}).

Definition print (m : message) : M D unit := emit (Print m).

(** A call that may change the disk, and one that only reads it. *)
Definition call {A} (f : D → result A * D) : M D A := λ w,
  let '(r, d) := f (disk w) in
  (r, {| disk := d; sent := sent w; trace := trace w |}).

Definition look {A} (f : D → result A) : M D A := λ w, (f (disk w), w).

Definition requests_get (r : request) : M D response := λ w,
  (serve (sent w) r,
   {| disk := disk w; sent := S (sent w); trace := trace w ++ [Get r] |}).

Definition get_file_list : M D (list json) :=
  try_except
    (response ← requests_get (Request MODELSCOPE_API None);
     let fallback : M D (list json) := mret (JStr <$> REQUIRED_FILES) in
     if (status_code response =? 200)%Z then
       data ← lift (resp_json response);
       has ← lift (py_in "Data" data);
       if has : bool then
         d ← lift (py_getitem data "Data");
         match d with
         | JArr items => lift (paths_of items)
         | _ => fallback
         end
       else fallback
     else fallback)
    (λ _, mret (JStr <$> REQUIRED_FILES)).

Fixpoint write_chunks (p : path) (chunks : list (list Byte.byte)) : M D unit :=
  match chunks with
  | [] => mret tt
  | chunk :: rest =>
      (match chunk with
       | [] => mret tt
       | _ => call (f_write os p chunk)
       end);;
      write_chunks p rest
  end.

(** The [with open(destination, mode)] block. *)
Definition stream_to_file (destination : path) (m : mode) (r : response)
  : M D unit :=
  emit (Open destination m);;
  call (open_file os destination m);;
  write_chunks destination (resp_chunks r);;
  match resp_stream_error r with
  | None => mret tt
  | Some e => raise e
  end.

Definition check_size (destination : path) (total_size : Z) : M D bool :=
  if (0 <? total_size)%Z then
    size ← look (st_size os destination);
    if negb (size =? total_size)%Z then raise SizeMismatch else mret true
  else mret true.

Definition receive (destination : path) (r : response) (initial_pos : Z)
  : M D bool :=
  (if negb ((status_code r =? 200)%Z || (status_code r =? 206)%Z)
   then raise (HTTPStatus (status_code r))
   else mret tt);;
  total_size ← lift (total_size_of r initial_pos);
  stream_to_file destination (mode_of r initial_pos) r;;
  check_size destination total_size.

Definition negotiate (url : string) (resume_header : option Z)
    (initial_pos : Z) : world D → result response * Z * world D := λ w,
  match requests_get (Request url resume_header) w with
  | (Raise e, w1) => (Raise e, initial_pos, w1)
  | (Ok r, w1) =>
      if range_rejected r initial_pos then
        let '(r', w2) := requests_get (Request url None) w1 in (r', 0%Z, w2)
      else (Ok r, initial_pos, w1)
  end.

Definition attempt (url : string) (destination : path)
    (resume_header : option Z) (initial_pos : Z)
  : world D → result bool * Z * world D := λ w,
  match negotiate url resume_header initial_pos w with
  | (Raise e, initial_pos', w1) => (Raise e, initial_pos', w1)
  | (Ok r, initial_pos', w1) =>
      let '(res, w2) := receive destination r initial_pos' w1 in
      (res, initial_pos', w2)
  end.

Definition sleep (secs : Z) : M D unit := emit (Sleep secs).

Fixpoint attempts (url : string) (destination : path)
    (resume_header : option Z) (max_retries : Z)
    (n : nat) (attempt_index : Z) (initial_pos : Z) : M D bool :=
  match n with
  | O => mret false
  | S n' => λ w,
      match attempt url destination resume_header initial_pos w with
      | (Ok b, _, w1) => (Ok b, w1)
      | (Raise e, initial_pos', w1) =>
          if is_Exception e then
            if (attempt_index <? max_retries - 1)%Z then
              (sleep (2 ^ attempt_index)%Z;;
               attempts url destination resume_header max_retries
                        n' (attempt_index + 1)%Z initial_pos') w1
            else (Ok false, w1)
          else (Raise e, w1)
      end
  end.

(** Lines 60 to 72, before the loop and outside its [try]: the parent
    directories, then the resume offset and header. *)
Definition prepare (destination : path) : M D (Z * option Z) :=
  call (mkdir_parents os destination);;
  present ← look (path_exists os destination);
  if present : bool then
    size ← look (st_size os destination); mret (size, Some size)
  else mret (0%Z, None).

Definition download_file (url : string) (destination : path)
    (max_retries : Z) : M D bool :=
  emit (Call_download_file url destination);;
  '(initial_pos, resume_header) ← prepare destination;
  attempts url destination resume_header max_retries
           (Z.to_nat max_retries) 0%Z initial_pos.

Definition process (filename : json) : M D disposition :=
  match filename with
  | JStr name =>
      let destination := models_dir_join name in
      present ← look (path_exists os destination);
      if present : bool then
        print (MsgSkipped name);; mret Present
      else
        ok ← download_file (download_url name) destination 3%Z;
        if ok : bool then print (MsgCompleted name);; mret Fetched
        else mret Failed
  | _ => raise TypeError
  end.

Fixpoint download_loop (file_list : list json) (t : tally) : M D tally :=
  match file_list with
  | [] => mret t
  | filename :: rest =>
      d ← process filename;
      download_loop rest (count t filename d)
  end.

Definition download_models : M D bool :=
  call (mkdir_models os);;
  file_list ← get_file_list;
  t ← download_loop file_list (Tally 0 []);
  match failed_files t with
  | [] => mret true
  | _ => mret false
  end.

Definition main : world D → Z * world D := λ w,
  match download_models w with
  | (Ok success, w') => ((if success : bool then 0 else 1)%Z, w')
  | (Raise KeyboardInterrupt, w') => (1%Z, (print MsgCancelled w').2)
  | (Raise e, w') => (1%Z, (print (MsgErrorOccurred e) w').2)
  end.

(** The dispositions of a whole list, file by file: the loop without its
    counters. *)
Fixpoint dispositions (file_list : list json) : M D (list disposition) :=
  match file_list with
  | [] => mret []
  | filename :: rest =>
      d ← process filename;
      ds ← dispositions rest;
      mret (d :: ds)
  end.

(** The events a run from [w] to [w'] added to the trace. *)
Definition events_since (w w' : world D) : list event :=
  drop (length (trace w)) (trace w').

End Script.

End Os.

(** ** Disks *)

(** The plain disk: files by path string, directories always there. *)
Definition plain : Os.calls (gmap string (list Byte.byte)) :=
  {| Os.mkdir_models := λ d, (Ok tt, d);
     Os.mkdir_parents := λ _ d, (Ok tt, d);
     Os.path_exists := λ p d, Ok (bool_decide (is_Some (d !! p)));
     Os.st_size := λ p d,
       match d !! p with
       | Some content => Ok (Z.of_nat (length content))
       | None => Raise OSError
       end;
     Os.open_file := λ p m d,
       (Ok tt,
        <[p := match m with
               | WB => []
               | AB => default [] (d !! p)
               end]> d);
     Os.f_write := λ p chunk d,
       (Ok tt, <[p := default [] (d !! p) ++ chunk]> d) |}.

Definition to_os (w : world) : Os.world (gmap string (list Byte.byte)) :=
  {| Os.disk := fs w; Os.sent := sent w; Os.trace := trace w |}.

(** The part of a path before its last component. *)
Fixpoint dirname (p : string) : string :=
  match p with
  | EmptyString => EmptyString
  | String c rest =>
      if is_substring "/" rest then String c (dirname rest) else EmptyString
  end.

(** The plain disk, except that the parent of a destination cannot be made
    a directory when a regular file stands there: the [mkdir] of line 61
    raises [FileExistsError], an [OSError]. *)
Definition strict : Os.calls (gmap string (list Byte.byte)) :=
  {| Os.mkdir_models := Os.mkdir_models plain;
     Os.mkdir_parents := λ p d,
       if bool_decide (is_Some (d !! dirname p)) then (Raise OSError, d)
       else (Ok tt, d);
     Os.path_exists := Os.path_exists plain;
     Os.st_size := Os.st_size plain;
     Os.open_file := Os.open_file plain;
     Os.f_write := Os.f_write plain |}.

(** Lists [a] and [a/b] and serves both. *)
Definition nested_server (n : nat) (r : request) : result response :=
  if String.eqb (req_url r) MODELSCOPE_API then Ok (listing ["a"; "a/b"])
  else Ok (serve_range remote_file r).



(** A computation on the plain disk and one on the map of files that do
    the same. *)
Definition same_run {A} (c : Os.M (gmap string (list Byte.byte)) A)
    (c' : M A) : Prop :=
  ∀ w, c (to_os w) = let '(r, w') := c' w in (r, to_os w').

Section Downloader.

Set Default Proof Using "Type".

(** The remote side: what the [n]-th request of the run produces. *)
Variable serve : nat → request → result response.

(** [Path("./models") / filename], pathlib's join (it normalises the name
    and lets an absolute name replace the directory). *)
Variable models_dir_join : string → path.

Definition requests_get (r : request) : M response := λ w,
  (serve (sent w) r,
   {| fs := fs w; sent := S (sent w); trace := trace w ++ [Get r] |}).

Definition get_file_list : M (list json) :=
  try_except
    (response ← requests_get (Request MODELSCOPE_API None);
     let fallback : M (list json) := mret (JStr <$> REQUIRED_FILES) in
     if (status_code response =? 200)%Z then
       data ← lift (resp_json response);
       has ← lift (py_in "Data" data);
       if has : bool then
         d ← lift (py_getitem data "Data");
         match d with
         | JArr items => lift (paths_of items)
         | _ => fallback
         end
       else fallback
     else fallback)
    (λ _, mret (JStr <$> REQUIRED_FILES)).

(** ** The resumable fetcher, [download_file] *)

(** The local file system: one byte string per existing path.  Directories
    are not modelled ([mkdir(parents=True, exist_ok=True)] always works). *)
Definition path_exists (p : path) : M bool := λ w,
  (Ok (bool_decide (is_Some (fs w !! p))), w).

Definition st_size (p : path) : M Z := λ w,
  match fs w !! p with
  | Some content => (Ok (Z.of_nat (length content)), w)
  | None => (Raise OSError, w)
  end.

(** [open(p, 'wb')] truncates, [open(p, 'ab')] keeps what is there; both
    create a missing file. *)
Definition open_file (p : path) (m : mode) : M unit := λ w,
  let content :=
    match m with
    | WB => []
    | AB => default [] (fs w !! p)
    end in
  (Ok tt,
   {| fs := <[p := content]> (fs w); sent := sent w;
      trace := trace w ++ [Open p m] |}).

Definition f_write (p : path) (chunk : list Byte.byte) : M unit := λ w,
  (Ok tt,
   {| fs := <[p := default [] (fs w !! p) ++ chunk]> (fs w); sent := sent w;
      trace := trace w |}).

(** [for chunk in response.iter_content(...): if chunk: f.write(chunk)]. *)
Fixpoint write_chunks (p : path) (chunks : list (list Byte.byte)) : M unit :=
  match chunks with
  | [] => mret tt
  | chunk :: rest =>
      (match chunk with
       | [] => mret tt
       | _ => f_write p chunk
       end);;
      write_chunks p rest
  end.

(** The [with open(destination, mode)] block; the file is closed, hence
    flushed, also when the stream raises. *)
Definition stream_to_file (destination : path) (m : mode) (r : response)
  : M unit :=
  open_file destination m;;
  write_chunks destination (resp_chunks r);;
  match resp_stream_error r with
  | None => mret tt
  | Some e => raise e
  end.

(** The integrity check that follows the stream. *)
Definition check_size (destination : path) (total_size : Z) : M bool :=
  if (0 <? total_size)%Z then
    size ← st_size destination;
    if negb (size =? total_size)%Z then raise SizeMismatch else mret true
  else mret true.

(** From the status check to [return True], with [initial_pos] settled. *)
Definition receive (destination : path) (r : response) (initial_pos : Z)
  : M bool :=
  (if negb ((status_code r =? 200)%Z || (status_code r =? 206)%Z)
   then raise (HTTPStatus (status_code r))
   else mret tt);;
  total_size ← lift (total_size_of r initial_pos);
  stream_to_file destination (mode_of r initial_pos) r;;
  check_size destination total_size.

(** The request of one attempt and, when the range was rejected, the plain
    request that replaces it.  [initial_pos] is a local of [download_file]
    that this step may reset and that outlives the attempt, also when the
    attempt raises, so its value comes back next to the result. *)
Definition negotiate (url : string) (resume_header : option Z)
    (initial_pos : Z) : world → result response * Z * world := λ w,
  match requests_get (Request url resume_header) w with
  | (Raise e, w1) => (Raise e, initial_pos, w1)
  | (Ok r, w1) =>
      if range_rejected r initial_pos then
        let '(r', w2) := requests_get (Request url None) w1 in (r', 0%Z, w2)
      else (Ok r, initial_pos, w1)
  end.

(** The body of the [try] of one attempt. *)
Definition attempt (url : string) (destination : path)
    (resume_header : option Z) (initial_pos : Z)
  : world → result bool * Z * world := λ w,
  match negotiate url resume_header initial_pos w with
  | (Raise e, initial_pos', w1) => (Raise e, initial_pos', w1)
  | (Ok r, initial_pos', w1) =>
      let '(res, w2) := receive destination r initial_pos' w1 in
      (res, initial_pos', w2)
  end.

Definition sleep (secs : Z) : M unit := emit (Sleep secs).

(** [for attempt in range(max_retries)], with [n] iterations left. *)
Fixpoint attempts (url : string) (destination : path)
    (resume_header : option Z) (max_retries : Z)
    (n : nat) (attempt_index : Z) (initial_pos : Z) : M bool :=
  match n with
  | O => mret false
  | S n' => λ w,
      match attempt url destination resume_header initial_pos w with
      | (Ok b, _, w1) => (Ok b, w1)
      | (Raise e, initial_pos', w1) =>
          if is_Exception e then
            if (attempt_index <? max_retries - 1)%Z then
              (sleep (2 ^ attempt_index)%Z;;
               attempts url destination resume_header max_retries
                        n' (attempt_index + 1)%Z initial_pos') w1
            else (Ok false, w1)
          else (Raise e, w1)
      end
  end.

Definition download_file (url : string) (destination : path)
    (max_retries : Z) : M bool :=
  emit (Call_download_file url destination);;
  present ← path_exists destination;
  '(initial_pos, resume_header) ←
     (if present : bool then
        size ← st_size destination; mret (size, Some size)
      else mret (0%Z, None));
  attempts url destination resume_header max_retries
           (Z.to_nat max_retries) 0%Z initial_pos.

(** ** The orchestrator, [download_models] *)

(** One iteration of the loop.  A name that the listing gave as something
    else than a string makes [models_dir / filename] raise [TypeError]. *)
Definition process (filename : json) : M disposition :=
  match filename with
  | JStr name =>
      let destination := models_dir_join name in
      present ← path_exists destination;
      if present : bool then
        print (MsgSkipped name);; mret Present
      else
        ok ← download_file (download_url name) destination 3%Z;
        if ok : bool then print (MsgCompleted name);; mret Fetched
        else mret Failed
  | _ => raise TypeError
  end.

Fixpoint download_loop (file_list : list json) (t : tally) : M tally :=
  match file_list with
  | [] => mret t
  | filename :: rest =>
      d ← process filename;
      download_loop rest (count t filename d)
  end.

Definition download_models : M bool :=
  file_list ← get_file_list;
  t ← download_loop file_list (Tally 0 []);
  match failed_files t with
  | [] => mret true
  | _ => mret false
  end.

(** The [__main__] block: the exit code of the process. *)
Definition main : world → Z * world := λ w,
  match download_models w with
  | (Ok success, w') => ((if success : bool then 0 else 1)%Z, w')
  | (Raise KeyboardInterrupt, w') => (1%Z, (print MsgCancelled w').2)
  | (Raise e, w') => (1%Z, (print (MsgErrorOccurred e) w').2)
  end.

(** The dispositions of a whole list, file by file: the loop without its
    counters. *)
Fixpoint dispositions (file_list : list json) : M (list disposition) :=
  match file_list with
  | [] => mret []
  | filename :: rest =>
      d ← process filename;
      ds ← dispositions rest;
      mret (d :: ds)
  end.

(** ** Observations on runs *)

(** The events a run from [w] to [w'] added to the trace. *)
Definition events_since (w w' : world) : list event :=
  drop (length (trace w)) (trace w').

(** The seconds slept, added up. *)
Definition slept (evs : list event) : Z :=
  foldr (λ e acc, match e with Sleep secs => secs + acc | _ => acc end)%Z
        0%Z evs.

Definition is_sleep (e : event) : bool :=
  match e with
  | Sleep _ => true
  | _ => false
  end.

(** The events of one attempt on [url] and [destination]. *)
Definition attempt_event (url : string) (destination : path) (e : event)
  : Prop :=
  match e with
  | Get r => req_url r = url
  | Open p _ => p = destination
  | _ => False
  end.

(** The world after [destination] was opened in mode [m] and [r]'s chunks
    were written to it. *)
Definition written (destination : path) (m : mode) (r : response) (w : world)
  : world :=
  let base :=
    match m with
    | WB => []
    | AB => default [] (fs w !! destination)
    end in
  {| fs := <[destination := base ++ mjoin (resp_chunks r)]> (fs w);
     sent := sent w;
     trace := trace w ++ [Open destination m] |}.

Definition status_accepted (r : response) : bool :=
  (status_code r =? 200)%Z || (status_code r =? 206)%Z.

(** A reply that passes the status check and whose content-length [int()]
    accepts. *)
Definition usable (r : response) : bool :=
  status_accepted r &&
  match resp_content_length r with
  | CLMalformed => false
  | _ => true
  end.

Definition size_on_disk (w : world) (p : path) : Z :=
  Z.of_nat (length (default [] (fs w !! p))).

(** [w'] is [w] after more events, all in [Q], with no file removed. *)
Definition extends (Q : event → Prop) (w w' : world) : Prop :=
  (∃ evs, trace w' = trace w ++ evs ∧ Forall Q evs) ∧
  (∀ p, is_Some (fs w !! p) → is_Some (fs w' !! p)).

(** The events of one call of [download_file]. *)
Definition fetch_event (url : string) (destination : path) (e : event)
  : Prop :=
  match e with
  | Get r => req_url r = url
  | Open p _ => p = destination
  | Sleep _ => True
  | Call_download_file u d => u = url ∧ d = destination
  | Print _ => False
  end.

(** The events of one attempt: its request first. *)
Definition is_attempt (url : string) (destination : path) (evs : list event)
  : Prop :=
  ∃ resume_header rest,
    evs = Get (Request url resume_header) :: rest ∧
    Forall (attempt_event url destination) rest.

(** An event that touches no file that [w] has: a call of the fetcher, the
    opening of a file or a download request only for a missing file. *)
Definition fetches_missing (w : world) (e : event) : Prop :=
  match e with
  | Call_download_file _ destination | Open destination _ =>
      fs w !! destination = None
  | Get r =>
      r = Request MODELSCOPE_API None ∨
      ∃ name, req_url r = download_url name ∧
              fs w !! models_dir_join name = None
  | _ => True
  end.

(** An event about the file [name]: its request, a call of the fetcher on
    its destination or the opening of its destination. *)
Definition concerns (name : string) (e : event) : Prop :=
  match e with
  | Get r => req_url r = download_url name
  | Call_download_file _ destination | Open destination _ =>
      destination = models_dir_join name
  | _ => False
  end.

(** An event of a run in which nothing is downloaded: the listing request
    and messages only. *)
Definition idle_event (e : event) : Prop :=
  match e with
  | Get r => r = Request MODELSCOPE_API None
  | Print _ => True
  | _ => False
  end.

(** ** Further observations *)

(** The ['Path'] of a listing item that is an object. *)
Definition path_field (item : json) : option json :=
  match item with
  | JObj fields => assoc "Path" fields
  | _ => None
  end.

Definition is_JObj (v : json) : bool :=
  match v with
  | JObj _ => true
  | _ => false
  end.

(** [None], a boolean or a number: neither [in] nor indexing works on it. *)
Definition is_scalar (v : json) : bool :=
  match v with
  | JNull | JBool _ | JNum _ => true
  | _ => false
  end.

(** The durations of the sleeps, in order. *)
Definition sleeps (evs : list event) : list Z :=
  omap (λ e, match e with Sleep secs => Some secs | _ => None end) evs.

(** What [requests.get] produces when the transfer cannot start: an
    [Exception], or a reply that fails the status check or whose
    content-length [int()] rejects. *)
Definition rejected (o : result response) : Prop :=
  match o with
  | Ok r => usable r = false
  | Raise e => is_Exception e = true
  end.

(** The file names of a pass whose fetch failed, in listing order. *)
Definition failures (file_list : list json) (ds : list disposition)
  : list json :=
  (filter (λ p, succeeded p.2 = false) (zip file_list ds)).*1.

(** * Properties *)

(** ** Running a bind *)

Lemma bind_Ok {A B} (c : M A) (f : A → M B) w a w1 :
  c w = (Ok a, w1) → (c ≫= f) w = f a w1.
Proof. intros Hc. unfold mbind, M_bind. by rewrite Hc. Qed.

Lemma bind_Raise {A B} (c : M A) (f : A → M B) w e w1 :
  c w = (Raise e, w1) → (c ≫= f) w = (Raise e, w1).
Proof. intros Hc. unfold mbind, M_bind. by rewrite Hc. Qed.

Lemma bind_inv {A B} (c : M A) (f : A → M B) w r w' :
  (c ≫= f) w = (r, w') →
  (∃ a w1, c w = (Ok a, w1) ∧ f a w1 = (r, w')) ∨
  (∃ e, c w = (Raise e, w') ∧ r = Raise e).
Proof.
  unfold mbind, M_bind. destruct (c w) as [[a|e] w1]; intros H.
  - left. by exists a, w1.
  - right. exists e. by inversion H.
Qed.

(** ** The counters of the loop *)

Lemma count_total t filename d :
  success_count (count t filename d) + length (failed_files (count t filename d))
  = S (success_count t + length (failed_files t)).
Proof. destruct d; simpl; rewrite ?length_app; simpl; lia. Qed.

Lemma download_loop_accounting file_list : ∀ t w t' w',
  download_loop file_list t w = (Ok t', w') →
  success_count t' + length (failed_files t')
  = success_count t + length (failed_files t) + length file_list.
Proof.
  induction file_list as [|filename rest IH]; intros t w t' w' Hrun.
  - simpl in Hrun. inversion Hrun; subst. simpl. lia.
  - simpl in Hrun. apply bind_inv in Hrun as [(d & w1 & _ & Hrest)|(e & _ & ?)];
      [|done].
    apply IH in Hrest. rewrite Hrest, count_total. simpl. lia.
Qed.

(** C10: when the loop of [download_models] has run over the whole list,
    every file name has been counted exactly once: the success count plus
    the number of failed files is the length of the list, and
    [download_models] returns [True] exactly when no file failed. *)
Theorem download_models_accounting w file_list w1 t w2 :
  get_file_list w = (Ok file_list, w1) →
  download_loop file_list (Tally 0 []) w1 = (Ok t, w2) →
  success_count t + length (failed_files t) = length file_list ∧
  download_models w = (Ok (bool_decide (failed_files t = [])), w2).
Proof.
  intros Hlist Hloop. split.
  - by apply download_loop_accounting in Hloop.
  - unfold download_models.
    rewrite (bind_Ok _ _ _ _ _ Hlist), (bind_Ok _ _ _ _ _ Hloop).
    by destruct (failed_files t).
Qed.

(** ** The file lister *)

Lemma paths_of_from_items items : ∀ files,
  paths_of items = Ok files →
  ∀ p, p ∈ files → ∃ item, item ∈ items ∧ py_getitem item "Path" = Ok p.
Proof.
  induction items as [|item rest IH]; intros files Hp p Hin.
  - inversion Hp; subst. by apply elem_of_nil in Hin.
  - simpl in Hp. destruct (py_in "Path" item) as [[|]|] eqn:Hhas; simpl in Hp.
    + destruct (py_getitem item "Path") as [q|] eqn:Hq; simpl in Hp; [|done].
      destruct (paths_of rest) as [ps|] eqn:Hps; simpl in Hp; [|done].
      inversion Hp; subst. apply elem_of_cons in Hin as [->|Hin].
      * exists item. split; [left|done].
      * destruct (IH ps eq_refl p Hin) as (it & Hit & Hget).
        exists it. split; [by right|done].
    + destruct (IH files Hp p Hin) as (it & Hit & Hget).
      exists it. split; [by right|done].
    + done.
Qed.

(** C4, as the code has it: [get_file_list] lets no [Exception] reach its
    caller (only a [KeyboardInterrupt] passes its handler), and what it
    returns is all or nothing: either the default list of 10 file names, or,
    after a 200 reply whose body parses as an object with a list under
    ['Data'], entries that are all ['Path'] fields of items of that list. *)
Theorem get_file_list_all_or_nothing w :
  length REQUIRED_FILES = 10 ∧
  match get_file_list w with
  | (Raise e, _) => e = KeyboardInterrupt
  | (Ok files, _) =>
      files = JStr <$> REQUIRED_FILES ∨
      ∃ r fields items,
        serve (sent w) (Request MODELSCOPE_API None) = Ok r ∧
        status_code r = 200%Z ∧
        resp_json r = Ok (JObj fields) ∧
        assoc "Data" fields = Some (JArr items) ∧
        paths_of items = Ok files ∧
        ∀ p, p ∈ files →
             ∃ item, item ∈ items ∧ py_getitem item "Path" = Ok p
  end.
Proof.
  split; [done|].
  unfold get_file_list, try_except, requests_get, mbind, M_bind, lift.
  destruct (serve (sent w) _) as [r|e] eqn:Hserve.
  2:{ destruct e; simpl; auto. }
  destruct (status_code r =? 200)%Z eqn:Hstatus; [|by left].
  apply Z.eqb_eq in Hstatus.
  destruct (resp_json r) as [data|e] eqn:Hjson.
  2:{ destruct e; simpl; auto. }
  destruct (py_in "Data" data) as [[|]|e] eqn:Hin; [| by left |].
  2:{ destruct e; simpl; auto. }
  destruct (py_getitem data "Data") as [d|e] eqn:Hget.
  2:{ destruct e; simpl; auto. }
  destruct d as [| | | |items|]; try by left.
  destruct (paths_of items) as [files|e] eqn:Hpaths.
  2:{ destruct e; simpl; auto. }
  simpl. right.
  destruct data as [| | | | |fields]; try done.
  simpl in Hget. destruct (assoc "Data" fields) as [x|] eqn:Hassoc; [|done].
  inversion Hget; subst x.
  exists r, fields, items. repeat split; try done.
  by apply paths_of_from_items.
Qed.

(** ** Closed forms of the file operations *)

Lemma world_eta w : {| fs := fs w; sent := sent w; trace := trace w |} = w.
Proof. by destruct w. Qed.

Lemma write_chunks_appends p chunks : ∀ w content,
  fs w !! p = Some content →
  write_chunks p chunks w
  = (Ok tt, {| fs := <[p := content ++ mjoin chunks]> (fs w);
               sent := sent w; trace := trace w |}).
Proof.
  induction chunks as [|chunk rest IH]; intros w content Hp.
  - simpl. rewrite app_nil_r, insert_id by done. by rewrite world_eta.
  - cbn [write_chunks]. destruct chunk as [|b chunk].
    + rewrite (bind_Ok _ _ w tt w) by done. by rewrite (IH w content Hp).
    + erewrite bind_Ok by reflexivity.
      erewrite IH by (simpl; apply lookup_insert_eq).
      simpl. rewrite Hp. simpl.
      by rewrite insert_insert_eq, <- app_assoc.
Qed.

Lemma stream_to_file_written destination m r w :
  stream_to_file destination m r w
  = (match resp_stream_error r with
     | None => Ok tt
     | Some e => Raise e
     end, written destination m r w).
Proof.
  unfold stream_to_file.
  erewrite bind_Ok by reflexivity.
  erewrite bind_Ok by (apply write_chunks_appends; simpl; apply lookup_insert_eq).
  simpl. rewrite insert_insert_eq. unfold written.
  by destruct (resp_stream_error r).
Qed.

Lemma size_on_disk_written destination m r w :
  fs (written destination m r w) !! destination
  = Some (match m with
          | WB => []
          | AB => default [] (fs w !! destination)
          end ++ mjoin (resp_chunks r)).
Proof. unfold written. simpl. apply lookup_insert_eq. Qed.

(** [receive] in closed form: what happens after the requests. *)
Lemma receive_closed_form destination r initial_pos w :
  receive destination r initial_pos w =
  if status_accepted r then
    match total_size_of r initial_pos with
    | Raise e => (Raise e, w)
    | Ok total_size =>
        let w1 := written destination (mode_of r initial_pos) r w in
        match resp_stream_error r with
        | Some e => (Raise e, w1)
        | None =>
            if (0 <? total_size)%Z
               && negb (size_on_disk w1 destination =? total_size)%Z
            then (Raise SizeMismatch, w1)
            else (Ok true, w1)
        end
    end
  else (Raise (HTTPStatus (status_code r)), w).
Proof.
  unfold receive, status_accepted.
  destruct (_ || _); simpl; [|done].
  erewrite bind_Ok by reflexivity.
  unfold lift at 1. unfold mbind at 1, M_bind at 1.
  destruct (total_size_of r initial_pos) as [total_size|e]; [|done].
  unfold mbind at 1, M_bind at 1. rewrite stream_to_file_written.
  destruct (resp_stream_error r) as [e|]; [done|].
  unfold check_size, size_on_disk.
  destruct (0 <? total_size)%Z; simpl; [|done].
  unfold mbind, M_bind, st_size. rewrite size_on_disk_written. simpl.
  rewrite lookup_insert_eq. simpl. by destruct (_ =? _)%Z.
Qed.

(** ** The integrity check *)


(** ** The fallback when the range is not honoured *)

(** C6: an attempt whose request carried a Range header for a positive
    [initial_pos] and was answered 416, or 200, resets [initial_pos] to 0
    and sends a plain request without Range; the destination is then never
    opened for appending: when the reply to the plain request passes the
    status check the file is opened in truncate-write mode and holds exactly
    the bytes of the new body, and otherwise it is not touched. *)
Theorem range_rejected_rewrites url destination initial_pos w r :
  (0 < initial_pos)%Z →
  serve (sent w) (Request url (Some initial_pos)) = Ok r →
  status_code r = 416%Z ∨ status_code r = 200%Z →
  let w1 := {| fs := fs w; sent := S (S (sent w));
               trace := trace w ++ [Get (Request url (Some initial_pos));
                                    Get (Request url None)] |} in
  ∃ res w',
    attempt url destination (Some initial_pos) initial_pos w = (res, 0%Z, w') ∧
    (Open destination AB ∉ events_since w w') ∧
    match serve (S (sent w)) (Request url None) with
    | Ok r' =>
        if usable r' then
          w' = written destination WB r' w1 ∧
          events_since w w' = [Get (Request url (Some initial_pos));
                               Get (Request url None);
                               Open destination WB] ∧
          fs w' !! destination = Some (mjoin (resp_chunks r'))
        else w' = w1 ∧ ∃ e, res = Raise e
    | Raise e => w' = w1 ∧ res = Raise e
    end.
Proof.
  intros Hpos Hserve Hstatus w1.
  assert (Hrej : range_rejected r initial_pos = true).
  { unfold range_rejected. apply Z.ltb_lt in Hpos. rewrite Hpos.
    destruct Hstatus as [-> | ->]; done. }
  assert (Hsince1 : events_since w w1
                    = [Get (Request url (Some initial_pos));
                       Get (Request url None)]).
  { unfold events_since, w1. simpl. by rewrite drop_app_length. }
  assert (Hnotin1 : Open destination AB ∉ events_since w w1).
  { rewrite Hsince1.
    repeat (apply not_elem_of_cons; split; [done|]). apply not_elem_of_nil. }
  unfold attempt, negotiate, requests_get. rewrite Hserve, Hrej. simpl.
  rewrite <- !app_assoc. simpl. fold w1.
  destruct (serve (S (sent w)) (Request url None)) as [r'|e] eqn:Hserve'.
  2:{ by eexists _, _. }
  destruct (receive destination r' 0 w1) as [res w'] eqn:Hrecv.
  exists res, w'. split; [done|].
  rewrite receive_closed_form in Hrecv. unfold usable.
  destruct (status_accepted r') eqn:Hacc; simpl.
  2:{ injection Hrecv as <- <-. eauto. }
  unfold total_size_of, int_content_length in Hrecv.
  assert (Hmode : mode_of r' 0 = WB) by done.
  destruct (resp_content_length r') as [|n|] eqn:Hcl; simpl in Hrecv.
  3:{ injection Hrecv as <- <-. eauto. }
  all: rewrite Hmode in Hrecv.
  all: assert (w' = written destination WB r' w1) as ->
         by (repeat case_match; congruence).
  all: assert (Hsince : events_since w (written destination WB r' w1)
                        = [Get (Request url (Some initial_pos));
                           Get (Request url None); Open destination WB])
         by (unfold events_since, written, w1; simpl;
             rewrite <- !app_assoc; by rewrite drop_app_length).
  all: rewrite Hsince, size_on_disk_written.
  all: split; [|done].
  all: repeat (apply not_elem_of_cons; split; [done|]); apply not_elem_of_nil.
Qed.

(** ** Traces of attempts *)

Lemma extends_refl Q w : extends Q w w.
Proof. split; [|done]. exists []. by rewrite app_nil_r. Qed.

Lemma extends_trans Q w1 w2 w3 :
  extends Q w1 w2 → extends Q w2 w3 → extends Q w1 w3.
Proof.
  intros [(e1 & Ht1 & HQ1) Hf1] [(e2 & Ht2 & HQ2) Hf2]. split; [|by auto].
  exists (e1 ++ e2). rewrite Ht2, Ht1, app_assoc. split; [done|].
  by apply Forall_app.
Qed.

Lemma extends_weaken (Q Q' : event → Prop) w w' :
  (∀ e, Q e → Q' e) → extends Q w w' → extends Q' w w'.
Proof.
  intros HQ [(evs & Ht & Hall) Hf]. split; [|done].
  exists evs. split; [done|]. by eapply Forall_impl.
Qed.

Lemma extends_events_since Q w w' :
  extends Q w w' → Forall Q (events_since w w').
Proof.
  intros [(evs & Ht & Hall) _]. unfold events_since.
  by rewrite Ht, drop_app_length.
Qed.

Lemma events_since_app w w' evs :
  trace w' = trace w ++ evs → events_since w w' = evs.
Proof. intros Ht. unfold events_since. by rewrite Ht, drop_app_length. Qed.

Lemma written_extends Q destination m r w :
  Q (Open destination m) → extends Q w (written destination m r w).
Proof.
  intros HQ. split.
  - exists [Open destination m]. split; [done|]. by repeat constructor.
  - intros p Hp. unfold written. simpl.
    destruct (decide (destination = p)) as [->|Hne].
    + rewrite lookup_insert_eq. eauto.
    + by rewrite lookup_insert_ne.
Qed.

Lemma receive_extends Q destination r initial_pos w res w' :
  (∀ m, Q (Open destination m)) →
  receive destination r initial_pos w = (res, w') →
  extends Q w w' ∧ res ≠ Ok false ∧
  (res = Ok true → is_Some (fs w' !! destination)).
Proof.
  intros HQ. rewrite receive_closed_form.
  pose proof (written_extends Q destination (mode_of r initial_pos) r w
                (HQ _)) as Hext.
  pose proof (size_on_disk_written destination (mode_of r initial_pos) r w)
    as Hfile.
  set (w1 := written destination (mode_of r initial_pos) r w) in *.
  clearbody w1. cbv zeta.
  destruct (status_accepted r).
  2:{ intros [= <- <-]. by split; [apply extends_refl|]. }
  destruct (total_size_of r initial_pos) as [total_size|e].
  2:{ intros [= <- <-]. by split; [apply extends_refl|]. }
  destruct (resp_stream_error r) as [e|]; [by intros [= <- <-]|].
  destruct (_ && _); intros [= <- <-]; [done|].
  split; [done|]. split; [done|]. intros _. rewrite Hfile. eauto.
Qed.

Lemma negotiate_trace url resume_header initial_pos w res initial_pos' w' :
  negotiate url resume_header initial_pos w = (res, initial_pos', w') →
  fs w' = fs w ∧
  ∃ evs, trace w' = trace w ++ Get (Request url resume_header) :: evs ∧
         (evs = [] ∨ evs = [Get (Request url None)]).
Proof.
  unfold negotiate, requests_get. intros Hrun.
  repeat case_match; simplify_eq; simpl; (split; [done|]).
  all: try (exists []; by eauto).
  all: exists [Get (Request url None)]; rewrite <- app_assoc; by eauto.
Qed.

Lemma attempt_events url destination resume_header initial_pos w
    res initial_pos' w' :
  attempt url destination resume_header initial_pos w
  = (res, initial_pos', w') →
  (∃ evs, trace w' = trace w ++ Get (Request url resume_header) :: evs ∧
          Forall (attempt_event url destination) evs) ∧
  (∀ p, is_Some (fs w !! p) → is_Some (fs w' !! p)) ∧
  res ≠ Ok false ∧
  (res = Ok true → is_Some (fs w' !! destination)).
Proof.
  unfold attempt.
  destruct (negotiate url resume_header initial_pos w) as [[r ip] w1] eqn:Hneg.
  apply negotiate_trace in Hneg as (Hfs & evs & Ht & Hevs).
  assert (Hgets : Forall (attempt_event url destination) evs).
  { destruct Hevs as [-> | ->]; by repeat constructor. }
  destruct r as [r|e].
  - destruct (receive destination r ip w1) as [res1 w2] eqn:Hrecv.
    intros [= <- <- <-].
    apply (receive_extends (attempt_event url destination)) in Hrecv
      as ([(evs' & Ht' & Hall') Hdom] & Hres & Hfile); [|done].
    split; [|split; [|done]].
    + exists (evs ++ evs'). rewrite Ht', Ht, <- app_assoc. split; [done|].
      by apply Forall_app.
    + intros p Hp. apply Hdom. by rewrite Hfs.
  - intros [= <- <- <-]. split; [by eauto|]. split; [|done].
    intros p Hp. by rewrite Hfs.
Qed.

Lemma is_attempt_no_sleep url destination evs :
  is_attempt url destination evs →
  slept evs = 0%Z ∧ filter (λ e, is_sleep e = true) evs = [].
Proof.
  intros (rh & rest & -> & Hall).
  assert (slept rest = 0%Z ∧ filter (λ e, is_sleep e = true) rest = [])
    as [Hs Hf].
  { induction Hall as [|e rest He _ [IHs IHf]]; [done|].
    destruct e; try done. }
  split; [done|]. rewrite filter_cons_False; [done|]. simpl. congruence.
Qed.

Lemma slept_app evs1 evs2 : slept (evs1 ++ evs2) = (slept evs1 + slept evs2)%Z.
Proof.
  induction evs1 as [|e evs1 IH]; [done|].
  simpl. destruct e; rewrite ?IH; lia.
Qed.

(** ** The retry loop *)

Lemma download_file_unfold url destination max_retries w :
  download_file url destination max_retries w =
  let w0 := {| fs := fs w; sent := sent w;
               trace := trace w ++ [Call_download_file url destination] |} in
  match fs w !! destination with
  | Some content =>
      attempts url destination (Some (Z.of_nat (length content))) max_retries
               (Z.to_nat max_retries) 0 (Z.of_nat (length content)) w0
  | None =>
      attempts url destination None max_retries (Z.to_nat max_retries) 0 0 w0
  end.
Proof.
  unfold download_file, emit, path_exists, st_size, mbind, M_bind. simpl.
  destruct (fs w !! destination) as [content|] eqn:Hfile.
  - rewrite bool_decide_eq_true_2 by eauto. simpl. by rewrite Hfile.
  - rewrite bool_decide_eq_false_2; [done|]. by intros [? ?].
Qed.

Lemma attempts_step url destination resume_header max_retries n index
    initial_pos w :
  attempts url destination resume_header max_retries (S n) index initial_pos w
  = match attempt url destination resume_header initial_pos w with
    | (Ok b, _, w1) => (Ok b, w1)
    | (Raise e, initial_pos', w1) =>
        if is_Exception e then
          if (index <? max_retries - 1)%Z then
            attempts url destination resume_header max_retries n
                     (index + 1) initial_pos'
                     {| fs := fs w1; sent := sent w1;
                        trace := trace w1 ++ [Sleep (2 ^ index)] |}
          else (Ok false, w1)
        else (Raise e, w1)
    end.
Proof. done. Qed.

(** A failed attempt inside the loop: its world, and what the next
    iteration starts from. *)
Lemma attempts_false_inv url destination resume_header max_retries n index
    initial_pos w w' :
  attempts url destination resume_header max_retries (S n) index initial_pos w
  = (Ok false, w') →
  ∃ e initial_pos' w1,
    attempt url destination resume_header initial_pos w
    = (Raise e, initial_pos', w1) ∧
    is_Exception e = true ∧
    ((index < max_retries - 1)%Z →
     attempts url destination resume_header max_retries n
              (index + 1) initial_pos'
              {| fs := fs w1; sent := sent w1;
                 trace := trace w1 ++ [Sleep (2 ^ index)] |}
     = (Ok false, w')) ∧
    ((max_retries - 1 ≤ index)%Z → w' = w1).
Proof.
  rewrite attempts_step.
  destruct (attempt url destination resume_header initial_pos w)
    as [[[b|e] ip] w1] eqn:Hatt.
  - intros [= -> ->]. by apply attempt_events in Hatt as (_ & _ & ? & _).
  - destruct (is_Exception e) eqn:He; [|done].
    intros Hrest. exists e, ip, w1. split; [done|]. split; [done|].
    destruct (Z.ltb_spec index (max_retries - 1)) as [Hlt|Hge].
    + split; [done|lia].
    + split; [lia|]. by injection Hrest.
Qed.

Lemma attempt_is_attempt url destination resume_header initial_pos w
    res initial_pos' w' :
  attempt url destination resume_header initial_pos w
  = (res, initial_pos', w') →
  ∃ a, is_attempt url destination a ∧ trace w' = trace w ++ a.
Proof.
  intros Hatt. apply attempt_events in Hatt as ((evs & Ht & Hall) & _).
  exists (Get (Request url resume_header) :: evs). split; [|done].
  by exists resume_header, evs.
Qed.

Lemma attempts_three_failures url destination resume_header initial_pos w w' :
  attempts url destination resume_header 3 3 0 initial_pos w = (Ok false, w') →
  ∃ a0 a1 a2,
    is_attempt url destination a0 ∧
    is_attempt url destination a1 ∧
    is_attempt url destination a2 ∧
    trace w' = trace w ++ a0 ++ Sleep 1 :: a1 ++ Sleep 2 :: a2.
Proof.
  intros Hrun.
  apply attempts_false_inv in Hrun as (e0 & ip1 & w1 & Ha0 & _ & Hrun & _).
  specialize (Hrun ltac:(lia)).
  apply attempts_false_inv in Hrun as (e1 & ip2 & w2 & Ha1 & _ & Hrun & _).
  specialize (Hrun ltac:(lia)).
  apply attempts_false_inv in Hrun as (e2 & ip3 & w3 & Ha2 & _ & _ & Hlast).
  specialize (Hlast ltac:(lia)). subst w'.
  apply attempt_is_attempt in Ha0 as (a0 & Hs0 & Ht0).
  apply attempt_is_attempt in Ha1 as (a1 & Hs1 & Ht1).
  apply attempt_is_attempt in Ha2 as (a2 & Hs2 & Ht2).
  exists a0, a1, a2. repeat (split; [done|]).
  simpl in Ht1, Ht2. rewrite Ht2, Ht1, Ht0.
  by rewrite <- !app_assoc.
Qed.

(** C5: when all three attempts of [download_file] with [max_retries = 3]
    fail, the call sleeps 1 second after the first attempt and 2 seconds
    after the second, and not after the third: its events are the three
    attempts separated by these two sleeps, 3 seconds in all. *)
Theorem backoff_sleeps_three_seconds url destination w w' :
  download_file url destination 3 w = (Ok false, w') →
  ∃ a0 a1 a2,
    is_attempt url destination a0 ∧
    is_attempt url destination a1 ∧
    is_attempt url destination a2 ∧
    events_since w w'
    = Call_download_file url destination
      :: a0 ++ Sleep (2 ^ 0) :: a1 ++ Sleep (2 ^ 1) :: a2 ∧
    filter (λ e, is_sleep e = true) (events_since w w') = [Sleep 1; Sleep 2] ∧
    slept (events_since w w') = 3%Z.
Proof.
  rewrite download_file_unfold. cbv zeta. change (Z.to_nat 3) with 3%nat.
  intros Hrun.
  assert (∃ a0 a1 a2,
    is_attempt url destination a0 ∧ is_attempt url destination a1 ∧
    is_attempt url destination a2 ∧
    trace w' = trace w ++ Call_download_file url destination
                 :: a0 ++ Sleep 1 :: a1 ++ Sleep 2 :: a2)
    as (a0 & a1 & a2 & H0 & H1 & H2 & Ht).
  { destruct (fs w !! destination);
      apply attempts_three_failures in Hrun
        as (a0 & a1 & a2 & H0 & H1 & H2 & Ht);
      exists a0, a1, a2; repeat (split; [done|]);
      rewrite Ht; simpl; by rewrite <- app_assoc. }
  exists a0, a1, a2. repeat (split; [done|]).
  rewrite (events_since_app _ _ _ Ht).
  destruct (is_attempt_no_sleep _ _ _ H0) as [Hs0 Hf0].
  destruct (is_attempt_no_sleep _ _ _ H1) as [Hs1 Hf1].
  destruct (is_attempt_no_sleep _ _ _ H2) as [Hs2 Hf2].
  split; [done|]. split.
  - rewrite filter_cons_False by (simpl; congruence).
    rewrite filter_app, Hf0. simpl.
    rewrite filter_cons_True by done.
    rewrite filter_app, Hf1. simpl.
    rewrite filter_cons_True by done. by rewrite Hf2.
  - change (Call_download_file url destination
              :: a0 ++ Sleep 1 :: a1 ++ Sleep 2 :: a2)
      with ([Call_download_file url destination]
              ++ a0 ++ [Sleep 1] ++ a1 ++ [Sleep 2] ++ a2).
    rewrite !slept_app, Hs0, Hs1, Hs2. done.
Qed.

(** ** Resuming *)

(** C8: with [N > 0] bytes on disk and a server that answers the ranged
    request with 206, a content-length of [T - N] and that many bytes, one
    call of [download_file] returns [True] after a single request; the file
    is opened for appending, ends with [T] bytes, and its first [N] bytes
    are the old ones, so that it equals the full file when the old bytes
    were its beginning and the body is its rest. *)
Theorem resume_completes url destination max_retries w old r N T :
  (0 < max_retries)%Z →
  fs w !! destination = Some old →
  N = Z.of_nat (length old) →
  (0 < N)%Z →
  serve (sent w) (Request url (Some N)) = Ok r →
  status_code r = 206%Z →
  resp_content_length r = CLInt (T - N) →
  resp_stream_error r = None →
  Z.of_nat (length (mjoin (resp_chunks r))) = (T - N)%Z →
  ∃ w',
    download_file url destination max_retries w = (Ok true, w') ∧
    events_since w w' = [Call_download_file url destination;
                         Get (Request url (Some N));
                         Open destination AB] ∧
    fs w' !! destination = Some (old ++ mjoin (resp_chunks r)) ∧
    size_on_disk w' destination = T ∧
    take (length old) (default [] (fs w' !! destination)) = old ∧
    ∀ full, take (length old) full = old →
            drop (length old) full = mjoin (resp_chunks r) →
            fs w' !! destination = Some full.
Proof.
  intros Hretries Hfile HN Hpos Hserve Hstatus Hcl Hend Hlen.
  set (w0 := {| fs := fs w; sent := sent w;
                trace := trace w ++ [Call_download_file url destination] |}).
  set (w1 := {| fs := fs w0; sent := S (sent w0);
                trace := trace w0 ++ [Get (Request url (Some N))] |}).
  exists (written destination AB r w1).
  assert (Hcontent : fs (written destination AB r w1) !! destination
                     = Some (old ++ mjoin (resp_chunks r))).
  { rewrite size_on_disk_written. simpl. by rewrite Hfile. }
  assert (Hsize : size_on_disk (written destination AB r w1) destination = T).
  { unfold size_on_disk. rewrite Hcontent. simpl. rewrite length_app. lia. }
  split; [|split; [|split; [done|split; [done|split]]]].
  - rewrite download_file_unfold, Hfile. cbv zeta. rewrite <- HN. fold w0.
    destruct (Z.to_nat max_retries) as [|n] eqn:Hn; [lia|].
    rewrite attempts_step. unfold attempt, negotiate, requests_get.
    simpl. rewrite Hserve.
    change {| fs := fs w; sent := S (sent w);
              trace := (trace w ++ [Call_download_file url destination])
                       ++ [Get (Request url (Some N))] |} with w1.
    assert (range_rejected r N = false) as -> by (unfold range_rejected; by rewrite Hstatus).
    rewrite receive_closed_form.
    assert (status_accepted r = true) as -> by (unfold status_accepted; by rewrite Hstatus).
    assert (total_size_of r N = Ok T) as ->.
    { unfold total_size_of, int_content_length. rewrite Hcl. simpl.
      f_equal. lia. }
    assert (mode_of r N = AB) as ->.
    { unfold mode_of. rewrite Hstatus. apply Z.ltb_lt in Hpos. by rewrite Hpos. }
    cbv zeta. rewrite Hend, Hsize, Z.eqb_refl, andb_false_r. done.
  - apply events_since_app. unfold written, w1, w0. simpl.
    by rewrite <- !app_assoc.
  - rewrite Hcontent. simpl. by rewrite take_app_length.
  - intros full Htake Hdrop. rewrite Hcontent, <- Htake, <- Hdrop.
    by rewrite take_drop.
Qed.

(** ** What a call of the fetcher does to the world *)

Lemma attempts_extends url destination resume_header max_retries n :
  ∀ index initial_pos w res w',
    attempts url destination resume_header max_retries n index initial_pos w
    = (res, w') →
    extends (fetch_event url destination) w w' ∧
    (res = Ok true → is_Some (fs w' !! destination)).
Proof.
  induction n as [|n IH]; intros index initial_pos w res w'.
  - intros [= <- <-]. split; [apply extends_refl|done].
  - rewrite attempts_step.
    destruct (attempt url destination resume_header initial_pos w)
      as [[r ip] w1] eqn:Hatt.
    apply attempt_events in Hatt as ((evs & Ht & Hall) & Hdom & Hres & Hfile).
    assert (Hext : extends (fetch_event url destination) w w1).
    { split; [|done]. eexists. split; [done|].
      constructor; [done|]. eapply Forall_impl; [done|]. by intros []. }
    destruct r as [b|e]; [intros [= <- <-]; by destruct b|].
    destruct (is_Exception e); [|by intros [= <- <-]].
    destruct (index <? max_retries - 1)%Z; [|by intros [= <- <-]].
    intros Hrest. apply IH in Hrest as [Hext' Hfile']. split; [|done].
    eapply extends_trans; [done|]. eapply extends_trans; [|done].
    split; [|done]. exists [Sleep (2 ^ index)]. split; [done|].
    by repeat constructor.
Qed.

Lemma download_file_extends url destination max_retries w res w' :
  download_file url destination max_retries w = (res, w') →
  extends (fetch_event url destination) w w' ∧
  (res = Ok true → is_Some (fs w' !! destination)).
Proof.
  rewrite download_file_unfold. cbv zeta. intros Hrun.
  assert (Hcall : extends (fetch_event url destination) w
            {| fs := fs w; sent := sent w;
               trace := trace w ++ [Call_download_file url destination] |}).
  { split; [|done]. eexists. split; [done|]. by repeat constructor. }
  destruct (fs w !! destination);
    apply attempts_extends in Hrun as [Hext Hfile];
    (split; [by eapply extends_trans|done]).
Qed.

(** ** One iteration of the orchestrator *)

Lemma process_present name w :
  is_Some (fs w !! models_dir_join name) →
  process (JStr name) w
  = (Ok Present, {| fs := fs w; sent := sent w;
                    trace := trace w ++ [Print (MsgSkipped name)] |}).
Proof.
  intros Hfile. unfold process, path_exists, mbind, M_bind.
  by rewrite bool_decide_eq_true_2.
Qed.

Lemma fetch_event_missing name w e :
  fs w !! models_dir_join name = None →
  fetch_event (download_url name) (models_dir_join name) e →
  fetches_missing w e.
Proof.
  intros Hfile. destruct e as [r|p m|secs|u d|m]; simpl; try done.
  - intros Hurl. right. by exists name.
  - by intros ->.
  - by intros [_ ->].
Qed.

Lemma process_extends filename w res w' :
  process filename w = (res, w') →
  extends (fetches_missing w) w w' ∧
  (∀ d, res = Ok d → succeeded d = true →
        ∃ name, filename = JStr name ∧
                is_Some (fs w' !! models_dir_join name)).
Proof.
  destruct filename as [| | |name| |];
    try (intros [= <- <-]; split; [apply extends_refl|done]).
  destruct (fs w !! models_dir_join name) as [content|] eqn:Hfile.
  - rewrite process_present by eauto. intros [= <- <-]. split.
    + split; [|done]. eexists. split; [done|]. by repeat constructor.
    + intros d _ _. exists name. simpl. rewrite Hfile. eauto.
  - unfold process, path_exists. unfold mbind at 1, M_bind at 1.
    rewrite bool_decide_eq_false_2 by (rewrite Hfile; by intros [? ?]).
    unfold mbind, M_bind.
    destruct (download_file _ _ _ w) as [[ok|e] w1] eqn:Hfetch;
      apply download_file_extends in Hfetch as [Hext Hthere];
      apply (extends_weaken _ (fetches_missing w)) in Hext;
      try (intros e'; by apply fetch_event_missing).
    + destruct ok.
      * intros [= <- <-]. split.
        -- eapply extends_trans; [done|]. split; [|done].
           eexists. split; [done|]. by repeat constructor.
        -- intros d _ _. exists name. split; [done|]. by apply Hthere.
      * intros [= <- <-]. split; [done|]. by intros d [= <-].
    + by intros [= <- <-].
Qed.

Lemma fetches_missing_mono Q w w1 e :
  extends Q w w1 → fetches_missing w1 e → fetches_missing w e.
Proof.
  intros [_ Hdom].
  assert (Hnone : ∀ p, fs w1 !! p = None → fs w !! p = None).
  { intros p Hp. destruct (fs w !! p) eqn:Hd; [|done].
    destruct (Hdom p) as [c Hc]; [by eauto|]. congruence. }
  destruct e as [r|p m|secs|u d|m]; simpl; try done; try apply Hnone.
  intros [->|(name & Hurl & Hfile)]; [by left|].
  right. exists name. split; [done|]. by apply Hnone.
Qed.

Lemma download_url_not_listing name : download_url name ≠ MODELSCOPE_API.
Proof. unfold download_url, MODELSCOPE_API. simpl. discriminate. Qed.

Lemma download_url_inj name1 name2 :
  download_url name1 = download_url name2 → name1 = name2.
Proof. unfold download_url. apply (inj _). Qed.

(** Nothing about a file that [w] has happens in a run made of such
    events. *)
Lemma fetches_missing_concerns w name e :
  is_Some (fs w !! models_dir_join name) →
  fetches_missing w e → ¬ concerns name e.
Proof.
  intros [content Hfile].
  destruct e as [r|p m|secs|u d|m]; simpl.
  - intros [->|(name' & Hurl & Hnone)] Hreq.
    + by apply (download_url_not_listing name).
    + rewrite Hurl in Hreq. apply download_url_inj in Hreq as ->. congruence.
  - intros Hnone ->. congruence.
  - by intros _ [].
  - intros Hnone ->. congruence.
  - by intros _ [].
Qed.

(** ** The loop, file by file *)

Lemma dispositions_extends file_list : ∀ w res w',
  dispositions file_list w = (res, w') →
  extends (fetches_missing w) w w'.
Proof.
  induction file_list as [|filename rest IH]; intros w res w'.
  - intros [= <- <-]. apply extends_refl.
  - cbn [dispositions]. unfold mbind at 1, M_bind at 1.
    destruct (process filename w) as [[d|e] w1] eqn:Hp;
      apply process_extends in Hp as [Hext _]; [|by intros [= <- <-]].
    unfold mbind, M_bind.
    destruct (dispositions rest w1) as [r w2] eqn:Hrest.
    apply IH in Hrest. intros Hres.
    assert (w' = w2) as -> by (destruct r; by injection Hres).
    eapply extends_trans; [done|].
    eapply extends_weaken; [|done]. intros e. by eapply fetches_missing_mono.
Qed.

(** After a completed pass, each file name counted as a success is a string
    whose destination exists; a destination that existed before the pass
    was skipped. *)
Lemma dispositions_files file_list : ∀ w ds w',
  dispositions file_list w = (Ok ds, w') →
  length ds = length file_list ∧
  (∀ i filename d,
     file_list !! i = Some filename → ds !! i = Some d →
     succeeded d = true →
     ∃ name, filename = JStr name ∧ is_Some (fs w' !! models_dir_join name)) ∧
  (∀ i name,
     file_list !! i = Some (JStr name) →
     is_Some (fs w !! models_dir_join name) →
     ds !! i = Some Present).
Proof.
  induction file_list as [|filename rest IH]; intros w ds w'.
  - intros [= <- <-]. by repeat split.
  - cbn [dispositions]. unfold mbind at 1, M_bind at 1.
    destruct (process filename w) as [[d|e] w1] eqn:Hp; [|done].
    unfold mbind, M_bind.
    destruct (dispositions rest w1) as [[ds'|e] w2] eqn:Hrest; [|done].
    intros [= <- <-].
    pose proof (dispositions_extends _ _ _ _ Hrest) as [_ Hdom2].
    pose proof (process_extends _ _ _ _ Hp) as [[_ Hdom1] Hsucc].
    apply IH in Hrest as (Hlen & Hdone & Hskip).
    split; [simpl; by rewrite Hlen|]. split.
    + intros [|i] f d'; simpl.
      * intros [= <-] [= <-] Hd. destruct (Hsucc d eq_refl Hd) as (name & -> & Hf).
        exists name. split; [done|]. by apply Hdom2.
      * apply Hdone.
    + intros [|i] name; simpl.
      * intros [= ->] Hfile. rewrite process_present in Hp by done.
        by injection Hp as <- _.
      * intros Hi Hfile. apply (Hskip i name Hi). by apply Hdom1.
Qed.

(** The loop is the pass with the counters threaded through. *)
Lemma download_loop_dispositions file_list : ∀ t w,
  match dispositions file_list w with
  | (Ok ds, w') =>
      ∃ t', download_loop file_list t w = (Ok t', w') ∧
            success_count t'
            = success_count t + length (filter (λ d, succeeded d = true) ds) ∧
            (failed_files t' = [] ↔
             failed_files t = [] ∧ Forall (λ d, succeeded d = true) ds)
  | (Raise e, w') => download_loop file_list t w = (Raise e, w')
  end.
Proof.
  induction file_list as [|filename rest IH]; intros t w.
  - simpl. exists t. split; [done|]. split; [simpl; lia|]. split; [done|tauto].
  - cbn [dispositions download_loop].
    destruct (process filename w) as [[d|e] w1] eqn:Hp.
    2:{ by rewrite !(bind_Raise _ _ _ _ _ Hp). }
    rewrite !(bind_Ok _ _ _ _ _ Hp).
    specialize (IH (count t filename d) w1).
    destruct (dispositions rest w1) as [[ds|e] w2] eqn:Hrest.
    2:{ by rewrite (bind_Raise _ _ _ _ _ Hrest). }
    rewrite (bind_Ok _ _ _ _ _ Hrest). unfold mret, M_ret.
    destruct IH as (t' & Hloop & Hcount & Hfailed).
    exists t'. split; [done|]. split.
    + rewrite Hcount. destruct d; simpl;
        rewrite ?filter_cons_True, ?filter_cons_False by done; simpl; lia.
    + rewrite Hfailed, Forall_cons. destruct d; simpl; try tauto.
      split; [|intros [_ [[=] _]]].
      intros [Hnil _]. by apply app_eq_nil in Hnil as [_ ?].
Qed.

(** A pass over files that are all there downloads nothing. *)
Lemma dispositions_all_present file_list : ∀ w,
  (∀ filename, filename ∈ file_list →
     ∃ name, filename = JStr name ∧ is_Some (fs w !! models_dir_join name)) →
  ∃ w', dispositions file_list w
        = (Ok (replicate (length file_list) Present), w') ∧
        fs w' = fs w ∧
        Forall idle_event (events_since w w').
Proof.
  induction file_list as [|filename rest IH]; intros w Hall.
  - exists w. repeat split. unfold events_since. by rewrite drop_all.
  - destruct (Hall filename) as (name & -> & Hfile); [by left|].
    cbn [dispositions]. unfold mbind at 1, M_bind at 1.
    rewrite process_present by done.
    set (w1 := {| fs := fs w; sent := sent w;
                  trace := trace w ++ [Print (MsgSkipped name)] |}).
    destruct (IH w1) as (w' & Hrest & Hfs & Hidle).
    { intros f Hf. apply Hall. by right. }
    exists w'. unfold mbind, M_bind. rewrite Hrest. split; [done|].
    split; [done|].
    unfold events_since in *. simpl in Hidle.
    rewrite length_app in Hidle. simpl in Hidle.
    assert (Hpre : trace w ++ [Print (MsgSkipped name)] `prefix_of` trace w').
    { pose proof (dispositions_extends _ _ _ _ Hrest) as [(evs & Ht & _) _].
      exists evs. by rewrite Ht. }
    destruct Hpre as [evs Ht].
    rewrite Ht, <- app_assoc, drop_app_length. rewrite Ht in Hidle.
    replace (length (trace w) + 1) with (length (trace w ++ [Print (MsgSkipped name)]))
      in Hidle by (rewrite length_app; simpl; lia).
    rewrite drop_app_length in Hidle. simpl. by constructor.
Qed.

(** ** Whole runs *)

Lemma get_file_list_world w res w' :
  get_file_list w = (res, w') →
  w' = {| fs := fs w; sent := S (sent w);
          trace := trace w ++ [Get (Request MODELSCOPE_API None)] |}.
Proof.
  unfold get_file_list, try_except, requests_get, lift, mbind, M_bind,
    mret, M_ret.
  intros Hrun. repeat case_match; congruence.
Qed.

(** [download_models] in terms of the pass over the files. *)
Lemma download_models_dispositions w :
  download_models w =
  match get_file_list w with
  | (Ok file_list, wl) =>
      match dispositions file_list wl with
      | (Ok ds, w') => (Ok (forallb succeeded ds), w')
      | (Raise e, w') => (Raise e, w')
      end
  | (Raise e, wl) => (Raise e, wl)
  end.
Proof.
  unfold download_models.
  destruct (get_file_list w) as [[file_list|e] wl] eqn:Hlist.
  2:{ by rewrite (bind_Raise _ _ _ _ _ Hlist). }
  rewrite (bind_Ok _ _ _ _ _ Hlist).
  pose proof (download_loop_dispositions file_list (Tally 0 []) wl) as Hloop.
  destruct (dispositions file_list wl) as [[ds|e] w'].
  2:{ by rewrite (bind_Raise _ _ _ _ _ Hloop). }
  destruct Hloop as (t & Hloop & _ & Hfailed).
  rewrite (bind_Ok _ _ _ _ _ Hloop).
  destruct (forallb succeeded ds) eqn:Hall.
  - assert (failed_files t = []) as ->; [|done].
    apply Hfailed. split; [done|].
    apply Forall_forall. intros d Hd%list_elem_of_In.
    by apply (proj1 (forallb_forall _ _) Hall).
  - destruct (failed_files t) eqn:Hff; [|done].
    destruct Hfailed as [Hfailed _]. destruct (Hfailed eq_refl) as [_ Hds].
    assert (forallb succeeded ds = true); [|congruence].
    apply forallb_forall. intros d Hd%list_elem_of_In.
    by apply (proj1 (Forall_forall _ _) Hds).
Qed.

Lemma download_models_extends w res w' :
  download_models w = (res, w') → extends (fetches_missing w) w w'.
Proof.
  rewrite download_models_dispositions.
  destruct (get_file_list w) as [r wl] eqn:Hlist.
  apply get_file_list_world in Hlist.
  assert (Hext : extends (fetches_missing w) w wl).
  { subst wl. split; [|done]. eexists. split; [done|].
    constructor; [by left|done]. }
  destruct r as [file_list|e]; [|by intros [= <- <-]].
  destruct (dispositions file_list wl) as [r w2] eqn:Hpass.
  apply dispositions_extends in Hpass. intros Hrun.
  assert (w' = w2) as -> by (destruct r; by injection Hrun).
  eapply extends_trans; [done|]. eapply extends_weaken; [|done].
  intros e. by eapply fetches_missing_mono.
Qed.

Lemma forallb_succeeded ds :
  forallb succeeded ds = true ↔ Forall (λ d, succeeded d = true) ds.
Proof.
  rewrite forallb_forall, Forall_forall.
  split; intros H d Hd; apply H; by apply list_elem_of_In.
Qed.

(** C3: [download_models] downloads nothing that is already there.  In any
    run, for a file name whose destination existed before the run, the
    fetcher is not called on that destination, the destination is not opened
    and no request for the file is sent; when the loop completes, each file name whose destination existed
    before the run was skipped and is counted in the success count; and a
    run that follows a fully successful run and gets the same listing
    succeeds without calling the fetcher, opening a file or sending a
    request other than the listing one. *)
Theorem download_models_idempotent :
  (∀ w res w' name,
     download_models w = (res, w') →
     is_Some (fs w !! models_dir_join name) →
     Forall (λ e, ¬ concerns name e) (events_since w w')) ∧
  (∀ w file_list wl t w',
     get_file_list w = (Ok file_list, wl) →
     download_loop file_list (Tally 0 []) wl = (Ok t, w') →
     ∃ ds,
       dispositions file_list wl = (Ok ds, w') ∧
       success_count t = length (filter (λ d, succeeded d = true) ds) ∧
       ∀ i name,
         file_list !! i = Some (JStr name) →
         is_Some (fs w !! models_dir_join name) →
         ds !! i = Some Present) ∧
  (∀ w w1 file_list wl wl',
     download_models w = (Ok true, w1) →
     get_file_list w = (Ok file_list, wl) →
     get_file_list w1 = (Ok file_list, wl') →
     ∃ w2,
       download_models w1 = (Ok true, w2) ∧
       fs w2 = fs w1 ∧
       Forall idle_event (events_since w1 w2)).
Proof.
  split; [|split].
  - intros w res w' name Hrun Hfile.
    apply download_models_extends, extends_events_since in Hrun.
    eapply Forall_impl; [done|].
    intros e. by apply fetches_missing_concerns.
  - intros w file_list wl t w' Hlist Hloop.
    pose proof (download_loop_dispositions file_list (Tally 0 []) wl) as Hpass.
    destruct (dispositions file_list wl) as [[ds|e] w2] eqn:Hds;
      [|congruence].
    destruct Hpass as (t' & Hloop' & Hcount & _).
    rewrite Hloop in Hloop'. injection Hloop' as <- <-.
    exists ds. split; [done|]. split; [done|].
    intros i name Hi Hfile.
    apply dispositions_files in Hds as (_ & _ & Hskip).
    apply (Hskip i name Hi).
    apply get_file_list_world in Hlist. by subst wl.
  - intros w w1 file_list wl wl' Hrun Hlist Hlist'.
    rewrite download_models_dispositions, Hlist in Hrun.
    destruct (dispositions file_list wl) as [[ds|e] w1'] eqn:Hds; [|done].
    injection Hrun as Hall ->. apply forallb_succeeded in Hall.
    apply dispositions_files in Hds as (Hlen & Hthere & _).
    pose proof (get_file_list_world _ _ _ Hlist') as Hwl'.
    destruct (dispositions_all_present file_list wl') as (w2 & Hpass & Hfs & Hidle).
    { intros filename [i Hi]%list_elem_of_lookup.
      destruct (lookup_lt_is_Some_2 ds i) as [d Hd].
      { rewrite Hlen. by eapply lookup_lt_Some. }
      destruct (Hthere i filename d Hi Hd) as (name & -> & Hfile).
      { apply (proj1 (Forall_forall _ _) Hall). eapply list_elem_of_lookup_2, Hd. }
      exists name. split; [done|]. by subst wl'. }
    exists w2. rewrite download_models_dispositions, Hlist', Hpass.
    split; [|split].
    + do 2 f_equal. apply forallb_succeeded.
      apply Forall_forall. by intros d [-> _]%elem_of_replicate.
    + rewrite Hfs. by subst wl'.
    + pose proof (dispositions_extends _ _ _ _ Hpass) as [(evs & Ht & _) _].
      rewrite (events_since_app _ _ _ Ht) in Hidle.
      assert (Ht1 : trace w2 = trace w1
                      ++ Get (Request MODELSCOPE_API None) :: evs).
      { rewrite Ht. subst wl'. simpl. by rewrite <- app_assoc. }
      rewrite (events_since_app _ _ _ Ht1). by constructor.
Qed.

(** * Further properties *)

(** ** The file lister, case by case *)

Lemma paths_of_objects items :
  forallb is_JObj items = true → paths_of items = Ok (omap path_field items).
Proof.
  induction items as [|item rest IH]; [done|].
  cbn [forallb]. intros [Hobj Hrest]%andb_true_iff.
  destruct item as [| | | | |fields]; try done.
  cbn [paths_of py_in py_getitem]. rewrite (IH Hrest).
  unfold mbind, result_bind. simpl.
  destruct (assoc "Path" fields) as [p|]; [|done].
  by rewrite bool_decide_eq_true_2 by eauto.
Qed.

Lemma paths_of_scalar items :
  existsb is_scalar items = true →
  ∃ e, paths_of items = Raise e ∧ is_Exception e = true.
Proof.
  induction items as [|item rest IH]; [done|].
  cbn [existsb]. intros Hor. cbn [paths_of].
  destruct (py_in "Path" item) as [[|]|e] eqn:Hin.
  - unfold mbind at 1, result_bind at 1.
    destruct (py_getitem item "Path") as [p|e] eqn:Hget.
    + destruct item as [| | | | |fields]; try done.
      destruct (IH Hor) as (e & -> & He). by exists e.
    + exists e. split; [done|].
      destruct item as [| | | | |fields]; simpl in Hget; try by injection Hget as <-.
      destruct (assoc "Path" fields); by simplify_eq.
  - destruct item; simpl in Hin, Hor; try done; by apply IH.
  - exists e. split; [done|]. destruct item; simpl in Hin; by simplify_eq.
Qed.

(** X1: the fallback.  When the request raises an [Exception], or the reply
    has another status than 200, or its body does not parse, or parses to
    something that has no list under ['Data'], [get_file_list] returns the
    default list. *)
Theorem get_file_list_falls_back w :
  match serve (sent w) (Request MODELSCOPE_API None) with
  | Raise e => is_Exception e = true
  | Ok r =>
      status_code r ≠ 200%Z ∨
      match resp_json r with
      | Raise e => is_Exception e = true
      | Ok data => ∀ items, py_getitem data "Data" ≠ Ok (JArr items)
      end
  end →
  (get_file_list w).1 = Ok (JStr <$> REQUIRED_FILES).
Proof.
  unfold get_file_list, try_except, requests_get, lift, mbind, M_bind,
    mret, M_ret.
  destruct (serve (sent w) _) as [r|e]; [|by intros ->].
  destruct (Z.eqb_spec (status_code r) 200) as [Hs|Hs]; [|done].
  intros [?|Hbody]; [done|].
  destruct (resp_json r) as [data|e]; [|by rewrite Hbody].
  destruct (py_in "Data" data) as [[|]|e] eqn:Hin; [|done|].
  - destruct (py_getitem data "Data") as [d|e] eqn:Hget.
    + destruct d as [| | | |items|]; try done. by destruct (Hbody items).
    + destruct data as [| | | | |fields]; simpl in Hget;
        try by injection Hget as <-.
      destruct (assoc "Data" fields); by simplify_eq.
  - destruct data; simpl in Hin; by simplify_eq.
Qed.

(** X2: a well-formed listing.  After a 200 reply whose body is an object
    with a list of objects under ['Data'], [get_file_list] returns the
    ['Path'] values of the items that have one, in the order of the listing;
    items without ['Path'] are left out. *)
Theorem get_file_list_remote_paths w r fields items :
  serve (sent w) (Request MODELSCOPE_API None) = Ok r →
  status_code r = 200%Z →
  resp_json r = Ok (JObj fields) →
  assoc "Data" fields = Some (JArr items) →
  forallb is_JObj items = true →
  (get_file_list w).1 = Ok (omap path_field items).
Proof.
  intros Hserve Hstatus Hjson Hdata Hobjs.
  unfold get_file_list, try_except, requests_get, lift, mbind, M_bind.
  rewrite Hserve, Hstatus, Hjson. simpl. rewrite Hdata.
  rewrite bool_decide_eq_true_2 by eauto.
  by rewrite (paths_of_objects _ Hobjs).
Qed.

(** X3: one bad item spoils the listing.  When the list under ['Data'] has
    an item that is [null], a boolean or a number, the comprehension raises
    and [get_file_list] returns the default list, not the paths of the other
    items. *)
Theorem get_file_list_scalar_item w r fields items :
  serve (sent w) (Request MODELSCOPE_API None) = Ok r →
  status_code r = 200%Z →
  resp_json r = Ok (JObj fields) →
  assoc "Data" fields = Some (JArr items) →
  existsb is_scalar items = true →
  (get_file_list w).1 = Ok (JStr <$> REQUIRED_FILES).
Proof.
  intros Hserve Hstatus Hjson Hdata Hbad.
  destruct (paths_of_scalar _ Hbad) as (e & Hpaths & He).
  unfold get_file_list, try_except, requests_get, lift, mbind, M_bind.
  rewrite Hserve, Hstatus, Hjson. simpl. rewrite Hdata.
  rewrite bool_decide_eq_true_2 by eauto.
  by rewrite Hpaths, He.
Qed.

(** X4: whatever it returns or raises, [get_file_list] sends exactly one
    request, to the listing endpoint and without Range, and changes no
    file. *)
Theorem get_file_list_single_request w :
  let w' := (get_file_list w).2 in
  events_since w w' = [Get (Request MODELSCOPE_API None)] ∧
  sent w' = S (sent w) ∧
  fs w' = fs w.
Proof.
  destruct (get_file_list w) as [res w'] eqn:Hrun.
  apply get_file_list_world in Hrun. subst w'. simpl.
  split; [|done]. by apply events_since_app.
Qed.

(** ** The fetcher: what it leaves alone *)

Lemma receive_world destination r initial_pos w res w' :
  receive destination r initial_pos w = (res, w') →
  w' = w ∨ w' = written destination (mode_of r initial_pos) r w.
Proof.
  rewrite receive_closed_form. cbv zeta. intros Hrun.
  repeat case_match; simplify_eq; auto.
Qed.

Lemma negotiate_sent url resume_header initial_pos w res initial_pos' w' :
  negotiate url resume_header initial_pos w = (res, initial_pos', w') →
  sent w' = S (sent w) ∨ sent w' = S (S (sent w)).
Proof.
  unfold negotiate, requests_get. intros Hrun.
  repeat case_match; simplify_eq; simpl; auto.
Qed.

Lemma attempt_frame url destination resume_header initial_pos w
    res initial_pos' w' :
  attempt url destination resume_header initial_pos w
  = (res, initial_pos', w') →
  (∀ p, p ≠ destination → fs w' !! p = fs w !! p) ∧
  (sent w < sent w' ≤ sent w + 2)%nat.
Proof.
  unfold attempt.
  destruct (negotiate url resume_header initial_pos w) as [[r ip] w1] eqn:Hneg.
  pose proof (negotiate_sent _ _ _ _ _ _ _ Hneg) as Hsent.
  apply negotiate_trace in Hneg as [Hfs _].
  destruct r as [r|e].
  - destruct (receive destination r ip w1) as [res1 w2] eqn:Hrecv.
    intros [= <- <- <-].
    apply receive_world in Hrecv as [-> | ->].
    + split; [intros; by rewrite Hfs|lia].
    + unfold written. simpl. split; [|lia].
      intros p Hp. by rewrite lookup_insert_ne, Hfs.
  - intros [= <- <- <-]. split; [intros; by rewrite Hfs|lia].
Qed.

Lemma attempts_frame url destination resume_header max_retries n :
  ∀ index initial_pos w res w',
    attempts url destination resume_header max_retries n index initial_pos w
    = (res, w') →
    (∀ p, p ≠ destination → fs w' !! p = fs w !! p) ∧
    (sent w' ≤ sent w + 2 * n)%nat.
Proof.
  induction n as [|n IH]; intros index initial_pos w res w'.
  - intros [= <- <-]. split; [done|lia].
  - rewrite attempts_step.
    destruct (attempt url destination resume_header initial_pos w)
      as [[r ip] w1] eqn:Hatt.
    apply attempt_frame in Hatt as [Hfs Hsent].
    destruct r as [b|e]; [intros [= <- <-]; split; [done|lia]|].
    destruct (is_Exception e); [|intros [= <- <-]; split; [done|lia]].
    destruct (index <? max_retries - 1)%Z;
      [|intros [= <- <-]; split; [done|lia]].
    intros Hrest. apply IH in Hrest as [Hfs' Hsent']. simpl in *.
    split; [|lia]. intros p Hp. by rewrite Hfs', Hfs.
Qed.

Lemma attempts_raise url destination resume_header max_retries n :
  ∀ index initial_pos w e w',
    attempts url destination resume_header max_retries n index initial_pos w
    = (Raise e, w') →
    e = KeyboardInterrupt.
Proof.
  induction n as [|n IH]; intros index initial_pos w e w'; [done|].
  rewrite attempts_step.
  destruct (attempt url destination resume_header initial_pos w)
    as [[[b|e1] ip] w1]; [done|].
  destruct (is_Exception e1) eqn:He1.
  - destruct (index <? max_retries - 1)%Z; [apply IH|done].
  - intros [= <- <-]. by destruct e1.
Qed.

(** X5: [download_file] changes no file but its destination, removes none,
    and sends at most two requests for each of its [max_retries]
    attempts. *)
Theorem download_file_frame url destination max_retries w :
  let w' := (download_file url destination max_retries w).2 in
  (∀ p, p ≠ destination → fs w' !! p = fs w !! p) ∧
  (is_Some (fs w !! destination) → is_Some (fs w' !! destination)) ∧
  (sent w' ≤ sent w + 2 * Z.to_nat max_retries)%nat.
Proof.
  destruct (download_file url destination max_retries w) as [res w'] eqn:Hrun.
  simpl. pose proof (download_file_extends _ _ _ _ _ _ Hrun) as [[_ Hdom] _].
  specialize (Hdom destination).
  rewrite download_file_unfold in Hrun. cbv zeta in Hrun.
  destruct (fs w !! destination) eqn:Hfile;
    apply attempts_frame in Hrun as [Hfs Hsent]; simpl in *;
    (split; [done|]); (split; [done|lia]).
Qed.


(** ** The fetcher: downloads from byte zero *)

(** A reply that delivers a whole body: accepted status, a content-length
    that is absent or the length of the body, no error in the stream. *)
Lemma attempt_from_zero url destination resume_header w r :
  serve (sent w) (Request url resume_header) = Ok r →
  status_accepted r = true →
  resp_content_length r = CLAbsent ∨
  resp_content_length r = CLInt (Z.of_nat (length (mjoin (resp_chunks r)))) →
  resp_stream_error r = None →
  attempt url destination resume_header 0 w
  = (Ok true, 0%Z,
     written destination WB r
       {| fs := fs w; sent := S (sent w);
          trace := trace w ++ [Get (Request url resume_header)] |}).
Proof.
  intros Hserve Hstatus Hcl Hend.
  unfold attempt, negotiate, requests_get. rewrite Hserve.
  assert (range_rejected r 0 = false) as ->.
  { unfold range_rejected, status_accepted in *. rewrite andb_false_r.
    destruct (Z.eqb_spec (status_code r) 416) as [H416|]; [|done].
    by rewrite H416 in Hstatus. }
  rewrite receive_closed_form, Hstatus, Hend.
  assert (mode_of r 0 = WB) as -> by done.
  unfold total_size_of, int_content_length.
  destruct Hcl as [-> | ->]; simpl; [done|].
  unfold size_on_disk. rewrite size_on_disk_written. simpl.
  by rewrite Z.add_0_r, Z.eqb_refl, andb_false_r.
Qed.

(** X8: a fresh download.  When the destination does not exist and the
    reply to the plain request delivers a whole body, [download_file]
    returns [True] after that single request, sent without Range; the file
    is created in truncate-write mode and holds exactly the body. *)
Theorem download_file_fresh url destination max_retries w r :
  (0 < max_retries)%Z →
  fs w !! destination = None →
  serve (sent w) (Request url None) = Ok r →
  status_accepted r = true →
  resp_content_length r = CLAbsent ∨
  resp_content_length r = CLInt (Z.of_nat (length (mjoin (resp_chunks r)))) →
  resp_stream_error r = None →
  ∃ w',
    download_file url destination max_retries w = (Ok true, w') ∧
    events_since w w' = [Call_download_file url destination;
                         Get (Request url None);
                         Open destination WB] ∧
    fs w' !! destination = Some (mjoin (resp_chunks r)).
Proof.
  intros Hmax Hfile Hserve Hstatus Hcl Hend.
  rewrite download_file_unfold, Hfile. cbv zeta.
  destruct (Z.to_nat max_retries) as [|n] eqn:Hn; [lia|].
  rewrite attempts_step.
  erewrite attempt_from_zero by done.
  eexists. split; [done|]. split; [|by rewrite size_on_disk_written].
  apply events_since_app. unfold written. simpl. by rewrite <- !app_assoc.
Qed.

(** X9: an empty destination.  When the destination exists with no bytes,
    the request carries [Range: bytes=0-] but nothing is resumed: a 200
    reply is taken as it is, without the second request of the fallback, a
    206 reply is written in truncate-write mode, and with a whole body the
    call returns [True] with exactly the body on disk. *)
Theorem download_file_empty_destination url destination max_retries w r :
  (0 < max_retries)%Z →
  fs w !! destination = Some [] →
  serve (sent w) (Request url (Some 0%Z)) = Ok r →
  status_accepted r = true →
  resp_content_length r = CLAbsent ∨
  resp_content_length r = CLInt (Z.of_nat (length (mjoin (resp_chunks r)))) →
  resp_stream_error r = None →
  ∃ w',
    download_file url destination max_retries w = (Ok true, w') ∧
    events_since w w' = [Call_download_file url destination;
                         Get (Request url (Some 0%Z));
                         Open destination WB] ∧
    fs w' !! destination = Some (mjoin (resp_chunks r)).
Proof.
  intros Hmax Hfile Hserve Hstatus Hcl Hend.
  rewrite download_file_unfold, Hfile. cbv zeta. simpl length.
  destruct (Z.to_nat max_retries) as [|n] eqn:Hn; [lia|].
  rewrite attempts_step.
  erewrite attempt_from_zero by done.
  eexists. split; [done|]. split; [|by rewrite size_on_disk_written].
  apply events_since_app. unfold written. simpl. by rewrite <- !app_assoc.
Qed.

(** X10: the retry of a fresh download starts over.  When the destination
    does not exist, the first transfer is cut by an [Exception] after some
    bytes and the second reply delivers a whole body, [download_file] sleeps
    one second, sends a second plain request, truncates the file and
    returns [True]: the bytes of the cut transfer are gone and the file
    holds exactly the second body. *)
Theorem download_file_retry_starts_over url destination max_retries w
    r1 e1 r2 :
  (1 < max_retries)%Z →
  fs w !! destination = None →
  serve (sent w) (Request url None) = Ok r1 →
  usable r1 = true →
  resp_stream_error r1 = Some e1 →
  is_Exception e1 = true →
  serve (S (sent w)) (Request url None) = Ok r2 →
  status_accepted r2 = true →
  resp_content_length r2 = CLAbsent ∨
  resp_content_length r2
  = CLInt (Z.of_nat (length (mjoin (resp_chunks r2)))) →
  resp_stream_error r2 = None →
  ∃ w',
    download_file url destination max_retries w = (Ok true, w') ∧
    events_since w w' = [Call_download_file url destination;
                         Get (Request url None); Open destination WB;
                         Sleep 1;
                         Get (Request url None); Open destination WB] ∧
    fs w' !! destination = Some (mjoin (resp_chunks r2)).
Proof.
  intros Hmax Hfile Hserve1 Husable Hend1 He1 Hserve2 Hstatus2 Hcl2 Hend2.
  apply andb_true_iff in Husable as [Hstatus1 Hcl1].
  rewrite download_file_unfold, Hfile. cbv zeta.
  destruct (Z.to_nat max_retries) as [|[|n]] eqn:Hn; [lia|lia|].
  rewrite attempts_step.
  assert (attempt url destination None 0
            {| fs := fs w; sent := sent w;
               trace := trace w ++ [Call_download_file url destination] |}
          = (Raise e1, 0%Z,
             written destination WB r1
               {| fs := fs w; sent := S (sent w);
                  trace := (trace w ++ [Call_download_file url destination])
                           ++ [Get (Request url None)] |})) as ->.
  { unfold attempt, negotiate, requests_get. simpl. rewrite Hserve1.
    assert (range_rejected r1 0 = false) as ->.
    { unfold range_rejected, status_accepted in *. rewrite andb_false_r.
      destruct (Z.eqb_spec (status_code r1) 416) as [H416|]; [|done].
      by rewrite H416 in Hstatus1. }
    rewrite receive_closed_form, Hstatus1, Hend1.
    assert (mode_of r1 0 = WB) as -> by done.
    unfold total_size_of, int_content_length.
    by destruct (resp_content_length r1). }
  rewrite He1. replace (0 <? max_retries - 1)%Z with true
    by (symmetry; apply Z.ltb_lt; lia).
  rewrite attempts_step.
  erewrite attempt_from_zero by done.
  eexists. split; [done|]. split; [|by rewrite size_on_disk_written].
  apply events_since_app. unfold written. simpl. by rewrite <- !app_assoc.
Qed.

(** ** Replies that cannot start a transfer *)

Lemma receive_unusable destination r initial_pos w :
  usable r = false →
  ∃ e, receive destination r initial_pos w = (Raise e, w) ∧
       is_Exception e = true.
Proof.
  intros Hun. rewrite receive_closed_form. unfold usable in Hun.
  destruct (status_accepted r); [|by eexists].
  unfold total_size_of, int_content_length.
  destruct (resp_content_length r); try done. by eexists.
Qed.

(** ** Backoff for any number of retries *)

Lemma sleeps_app evs1 evs2 : sleeps (evs1 ++ evs2) = sleeps evs1 ++ sleeps evs2.
Proof. apply omap_app. Qed.

Lemma is_attempt_sleeps url destination evs :
  is_attempt url destination evs → sleeps evs = [].
Proof.
  intros (rh & rest & -> & Hall). unfold sleeps. simpl.
  induction Hall as [|e rest He _ IH]; [done|]. by destruct e.
Qed.

Lemma attempts_backoff url destination resume_header max_retries n :
  ∀ index initial_pos w w',
    attempts url destination resume_header max_retries n index initial_pos w
    = (Ok false, w') →
    (index + Z.of_nat n = max_retries)%Z →
    (0 ≤ index)%Z →
    ∃ evs, trace w' = trace w ++ evs ∧
           sleeps evs
           = (λ i, 2 ^ i)%Z <$> seqZ index (max_retries - 1 - index) ∧
           (n ≠ 0%nat → slept evs = (2 ^ (max_retries - 1) - 2 ^ index)%Z).
Proof.
  induction n as [|n IH]; intros index initial_pos w w' Hrun Hsum Hindex.
  - injection Hrun as <-. exists []. rewrite app_nil_r.
    split; [done|]. split; [|done]. by rewrite seqZ_nil by lia.
  - apply attempts_false_inv in Hrun
      as (e & ip & w1 & Hatt & _ & Hmore & Hlast).
    apply attempt_is_attempt in Hatt as (a & Ha & Ht).
    pose proof (is_attempt_sleeps _ _ _ Ha) as Hsl.
    pose proof (is_attempt_no_sleep _ _ _ Ha) as [Hslept _].
    destruct (Z.lt_ge_cases index (max_retries - 1)) as [Hlt|Hge].
    + apply IH in Hmore as (evs & Ht' & Hsleeps & Hslept'); [|lia..].
      exists (a ++ Sleep (2 ^ index) :: evs). simpl in Ht'.
      rewrite Ht', Ht, <- !app_assoc. split; [done|]. split.
      * rewrite sleeps_app, Hsl. cbn [app]. unfold sleeps in *. cbn [omap list_omap].
        fold (omap (λ e0, match e0 with Sleep secs => Some secs | _ => None end) evs).
        rewrite Hsleeps, (seqZ_cons index) by lia. cbn [fmap list_fmap].
        do 3 f_equal; lia.
      * intros _. rewrite slept_app, Hslept. cbn [slept foldr].
        fold (slept evs). rewrite Hslept' by lia.
        replace (index + 1)%Z with (Z.succ index) by lia.
        rewrite Z.pow_succ_r by lia. lia.
    + rewrite (Hlast Hge). exists a. split; [done|]. split.
      * rewrite Hsl. by rewrite seqZ_nil by lia.
      * intros _. rewrite Hslept.
        replace index with (max_retries - 1)%Z by lia. lia.
Qed.

(** X12: exponential backoff for any [max_retries].  A call of
    [download_file] that returns [False] has slept [2^0, 2^1, ...,
    2^(max_retries - 2)] seconds, in this order, one sleep after each
    attempt but the last; for [max_retries] of at least 1 that is
    [2^(max_retries - 1) - 1] seconds in all. *)
Theorem download_file_backoff url destination max_retries w w' :
  download_file url destination max_retries w = (Ok false, w') →
  sleeps (events_since w w')
  = (λ i, 2 ^ i)%Z <$> seqZ 0 (max_retries - 1) ∧
  ((1 ≤ max_retries)%Z →
   slept (events_since w w') = (2 ^ (max_retries - 1) - 1)%Z).
Proof.
  rewrite download_file_unfold. cbv zeta.
  set (w0 := {| fs := fs w; sent := sent w;
                trace := trace w ++ [Call_download_file url destination] |}).
  intros Hrun.
  destruct (Z.le_gt_cases max_retries 0) as [Hle|Hgt].
  - rewrite Z2Nat.nonpos in Hrun by done.
    assert (w' = w0) as -> by (destruct (fs w !! destination); by injection Hrun).
    rewrite (events_since_app w w0 [Call_download_file url destination]) by done.
    split; [|lia]. by rewrite seqZ_nil by lia.
  - assert (∃ evs, trace w' = trace w0 ++ evs ∧
              sleeps evs = (λ i, 2 ^ i)%Z <$> seqZ 0 (max_retries - 1 - 0) ∧
              (Z.to_nat max_retries ≠ 0%nat →
               slept evs = (2 ^ (max_retries - 1) - 2 ^ 0)%Z))
      as (evs & Ht & Hsleeps & Hslept).
    { destruct (fs w !! destination);
        (eapply attempts_backoff; [done|lia|lia]). }
    simpl in Ht. rewrite <- app_assoc in Ht.
    rewrite (events_since_app _ _ _ Ht). split.
    + cbn [app]. unfold sleeps in *. cbn [omap list_omap].
      etrans; [apply Hsleeps|]. do 2 f_equal. lia.
    + intros _. cbn [app slept foldr]. fold (slept evs).
      rewrite Hslept by lia. done.
Qed.

(** ** The orchestrator: files, reports and requests *)

Lemma download_file_elsewhere url destination max_retries w res w' :
  download_file url destination max_retries w = (res, w') →
  (∀ p, p ≠ destination → fs w' !! p = fs w !! p) ∧
  (sent w' ≤ sent w + 2 * Z.to_nat max_retries)%nat ∧
  (∀ e, res = Raise e → e = KeyboardInterrupt).
Proof.
  rewrite download_file_unfold. cbv zeta. intros Hrun.
  assert (∃ rh ip,
    attempts url destination rh max_retries (Z.to_nat max_retries) 0 ip
      {| fs := fs w; sent := sent w;
         trace := trace w ++ [Call_download_file url destination] |}
    = (res, w')) as (rh & ip & Hatt).
  { destruct (fs w !! destination); eauto. }
  pose proof (attempts_frame _ _ _ _ _ _ _ _ _ _ Hatt) as [Hfs Hsent].
  split; [done|]. split; [done|].
  intros e ->. by eapply attempts_raise.
Qed.

Lemma process_keeps filename w res w' :
  process filename w = (res, w') →
  (∀ p, is_Some (fs w !! p) → fs w' !! p = fs w !! p) ∧
  (sent w' ≤ sent w + 6)%nat ∧
  (∀ e, res = Raise e →
        e = KeyboardInterrupt ∨
        e = TypeError ∧ ∀ name, filename ≠ JStr name).
Proof.
  destruct filename as [| | |name| |];
    try (intros [= <- <-]; split; [done|]; split; [lia|];
         intros e [= <-]; by right).
  destruct (fs w !! models_dir_join name) as [content|] eqn:Hfile.
  - rewrite process_present by eauto. intros [= <- <-]. simpl.
    split; [done|]. split; [lia|done].
  - unfold process, path_exists. unfold mbind at 1, M_bind at 1.
    rewrite bool_decide_eq_false_2 by (rewrite Hfile; by intros [? ?]).
    unfold mbind, M_bind.
    destruct (download_file _ _ _ w) as [r w1] eqn:Hfetch.
    apply download_file_elsewhere in Hfetch as (Hfs & Hsent & Hraise).
    change (Z.to_nat 3) with 3 in Hsent.
    assert (Hkeep : ∀ p, is_Some (fs w !! p) → fs w1 !! p = fs w !! p).
    { intros p Hp. apply Hfs. intros ->. rewrite Hfile in Hp. by destruct Hp. }
    destruct r as [[|]|e]; intros [= <- <-]; simpl;
      (split; [done|]); (split; [lia|]); try done.
    intros e' [= <-]. left. by apply Hraise.
Qed.

Lemma dispositions_keeps file_list : ∀ w res w',
  dispositions file_list w = (res, w') →
  (∀ p, is_Some (fs w !! p) → fs w' !! p = fs w !! p) ∧
  (sent w' ≤ sent w + 6 * length file_list)%nat ∧
  (∀ e, res = Raise e →
        e = KeyboardInterrupt ∨
        e = TypeError ∧ ∃ filename,
          filename ∈ file_list ∧ ∀ name, filename ≠ JStr name).
Proof.
  induction file_list as [|filename rest IH]; intros w res w'.
  - intros [= <- <-]. split; [done|]. split; [simpl; lia|done].
  - cbn [dispositions]. unfold mbind at 1, M_bind at 1.
    destruct (process filename w) as [[d|e] w1] eqn:Hp;
      apply process_keeps in Hp as (Hfs & Hsent & Hraise).
    + unfold mbind, M_bind.
      destruct (dispositions rest w1) as [r w2] eqn:Hrest.
      apply IH in Hrest as (Hfs' & Hsent' & Hraise'). intros Hres.
      assert (w' = w2) as -> by (destruct r; by injection Hres).
      split; [|split; [simpl; lia|]].
      * intros p Hp. rewrite Hfs'; [by apply Hfs|]. rewrite Hfs; done.
      * intros e ->. destruct r as [ds|e']; [done|]. injection Hres as <-.
        destruct (Hraise' e' eq_refl) as [->|(-> & f & Hf & Hnot)]; [by left|].
        right. split; [done|]. exists f. split; [by right|done].
    + intros [= <- <-]. split; [done|]. split; [simpl; lia|].
      intros e' [= <-]. destruct (Hraise e eq_refl) as [->|[-> Hnot]]; [by left|].
      right. split; [done|]. exists filename. split; [by left|done].
Qed.

(** X14: whatever is listed, [download_models] sends at most the listing
    request and six requests per listed file (three attempts of at most two
    requests each). *)
Theorem run_request_bound w file_list wl :
  get_file_list w = (Ok file_list, wl) →
  (sent (download_models w).2 ≤ sent w + 1 + 6 * length file_list)%nat.
Proof.
  intros Hlist. rewrite download_models_dispositions, Hlist.
  apply get_file_list_world in Hlist.
  destruct (dispositions file_list wl) as [r w2] eqn:Hpass.
  apply dispositions_keeps in Hpass as (_ & Hsent & _).
  subst wl. simpl in Hsent. destruct r; simpl; lia.
Qed.

Lemma download_loop_failures file_list : ∀ t w,
  match dispositions file_list w with
  | (Ok ds, w') =>
      ∃ t', download_loop file_list t w = (Ok t', w') ∧
            failed_files t' = failed_files t ++ failures file_list ds
  | (Raise e, w') => True
  end.
Proof.
  induction file_list as [|filename rest IH]; intros t w.
  - simpl. exists t. split; [done|]. by rewrite app_nil_r.
  - cbn [dispositions download_loop].
    destruct (process filename w) as [[d|e] w1] eqn:Hp.
    2:{ by rewrite !(bind_Raise _ _ _ _ _ Hp). }
    rewrite !(bind_Ok _ _ _ _ _ Hp).
    specialize (IH (count t filename d) w1).
    destruct (dispositions rest w1) as [[ds|e] w2] eqn:Hrest.
    2:{ by rewrite (bind_Raise _ _ _ _ _ Hrest). }
    rewrite (bind_Ok _ _ _ _ _ Hrest). unfold mret, M_ret.
    destruct IH as (t' & Hloop & Hfailed).
    exists t'. split; [done|]. rewrite Hfailed. unfold failures.
    destruct d; simpl.
    + by rewrite filter_cons_False by done.
    + by rewrite filter_cons_False by done.
    + by rewrite <- app_assoc.
Qed.

(** X16: the report.  When the loop completes, [failed_files] holds, in the
    order of the listing, exactly the entries whose download returned
    [False], and [success_count] counts all the others. *)
Theorem failed_files_in_listing_order file_list w t w' :
  download_loop file_list (Tally 0 []) w = (Ok t, w') →
  ∃ ds,
    dispositions file_list w = (Ok ds, w') ∧
    failed_files t = failures file_list ds ∧
    success_count t = length file_list - length (failures file_list ds).
Proof.
  intros Hloop.
  pose proof (download_loop_failures file_list (Tally 0 []) w) as Hfail.
  pose proof (download_loop_dispositions file_list (Tally 0 []) w) as Hpass.
  destruct (dispositions file_list w) as [[ds|e] w2] eqn:Hds; [|congruence].
  destruct Hfail as (t' & Hloop' & Hfailed).
  rewrite Hloop in Hloop'. injection Hloop' as <- <-.
  exists ds. split; [done|]. split; [done|].
  apply download_loop_accounting in Hloop. simpl in *.
  rewrite Hfailed in Hloop. lia.
Qed.

(** X17: a name listed twice is downloaded once.  In a completed pass, once
    an entry was skipped or fetched, every later entry with the same name is
    skipped as already present. *)
Theorem listed_twice_fetched_once file_list : ∀ w ds w' i j name d,
  dispositions file_list w = (Ok ds, w') →
  i < j →
  file_list !! i = Some (JStr name) →
  file_list !! j = Some (JStr name) →
  ds !! i = Some d →
  succeeded d = true →
  ds !! j = Some Present.
Proof.
  induction file_list as [|filename rest IH];
    intros w ds w' i j name d; [done|].
  cbn [dispositions]. unfold mbind at 1, M_bind at 1.
  destruct (process filename w) as [[d0|e] w1] eqn:Hp; [|done].
  unfold mbind, M_bind.
  destruct (dispositions rest w1) as [[ds'|e] w2] eqn:Hrest; [|done].
  intros [= <- <-] Hij. destruct j as [|j]; [lia|].
  destruct i as [|i]; simpl.
  - intros [= ->] Hj [= ->] Hd.
    apply process_extends in Hp as [_ Hthere].
    destruct (Hthere d eq_refl Hd) as (name' & [= <-] & Hfile).
    apply dispositions_files in Hrest as (_ & _ & Hskip). by eapply Hskip.
  - intros Hi Hj Hdi Hd. eapply (IH w1 ds' w2 i j); eauto. lia.
Qed.

(** X18: exit code 0 means that every listed file is on disk: the listing
    was obtained, each of its entries is a string, and the destination of
    each exists when the process ends. *)
Theorem exit_zero_all_on_disk w w' :
  main w = (0%Z, w') →
  ∃ file_list wl,
    get_file_list w = (Ok file_list, wl) ∧
    ∀ filename, filename ∈ file_list →
      ∃ name, filename = JStr name ∧
              is_Some (fs w' !! models_dir_join name).
Proof.
  unfold main. rewrite download_models_dispositions.
  destruct (get_file_list w) as [[file_list|e] wl] eqn:Hlist;
    [|by destruct e].
  destruct (dispositions file_list wl) as [[ds|e] w2] eqn:Hds;
    [|by destruct e].
  destruct (forallb succeeded ds) eqn:Hall; [|done].
  intros [= <-]. exists file_list, wl. split; [done|].
  apply forallb_succeeded in Hall.
  apply dispositions_files in Hds as (Hlen & Hthere & _).
  intros filename [i Hi]%list_elem_of_lookup.
  destruct (lookup_lt_is_Some_2 ds i) as [d Hd].
  { rewrite Hlen. by eapply lookup_lt_Some. }
  apply (Hthere i filename d Hi Hd).
  apply (proj1 (Forall_forall _ _) Hall). by eapply list_elem_of_lookup_2.
Qed.

(** ** The fetcher after a rejected range *)

Lemma receive_from_zero destination r w :
  status_accepted r = true →
  resp_content_length r = CLAbsent ∨
  resp_content_length r = CLInt (Z.of_nat (length (mjoin (resp_chunks r)))) →
  resp_stream_error r = None →
  receive destination r 0 w = (Ok true, written destination WB r w).
Proof.
  intros Hstatus Hcl Hend.
  rewrite receive_closed_form, Hstatus, Hend.
  assert (mode_of r 0 = WB) as -> by done.
  unfold total_size_of, int_content_length.
  destruct Hcl as [-> | ->]; simpl; [done|].
  unfold size_on_disk. rewrite size_on_disk_written. simpl.
  by rewrite Z.add_0_r, Z.eqb_refl, andb_false_r.
Qed.

(** X19: the fallback completes the download.  With [N > 0] bytes on disk,
    a reply 416 or 200 to the ranged request and a whole body in reply to
    the plain request that follows, [download_file] returns [True] after
    these two requests; the old bytes are gone and the file holds exactly
    the new body.  So a file that is already complete is downloaded again
    in full. *)
Theorem download_file_fallback_completes url destination max_retries w
    old r1 r2 :
  (0 < max_retries)%Z →
  fs w !! destination = Some old →
  old ≠ [] →
  serve (sent w) (Request url (Some (Z.of_nat (length old)))) = Ok r1 →
  status_code r1 = 416%Z ∨ status_code r1 = 200%Z →
  serve (S (sent w)) (Request url None) = Ok r2 →
  status_accepted r2 = true →
  resp_content_length r2 = CLAbsent ∨
  resp_content_length r2
  = CLInt (Z.of_nat (length (mjoin (resp_chunks r2)))) →
  resp_stream_error r2 = None →
  ∃ w',
    download_file url destination max_retries w = (Ok true, w') ∧
    events_since w w'
    = [Call_download_file url destination;
       Get (Request url (Some (Z.of_nat (length old))));
       Get (Request url None);
       Open destination WB] ∧
    fs w' !! destination = Some (mjoin (resp_chunks r2)).
Proof.
  intros Hmax Hfile Hold Hserve1 Hstatus1 Hserve2 Hstatus2 Hcl2 Hend2.
  rewrite download_file_unfold, Hfile. cbv zeta.
  destruct (Z.to_nat max_retries) as [|n] eqn:Hn; [lia|].
  rewrite attempts_step. unfold attempt, negotiate, requests_get. simpl.
  rewrite Hserve1.
  assert (range_rejected r1 (Z.of_nat (length old)) = true) as ->.
  { unfold range_rejected.
    assert ((0 <? Z.of_nat (length old))%Z = true) as ->
      by (apply Z.ltb_lt; destruct old; [done|simpl; lia]).
    destruct Hstatus1 as [-> | ->]; done. }
  rewrite Hserve2, receive_from_zero by done.
  eexists. split; [done|]. split; [|by rewrite size_on_disk_written].
  apply events_since_app. unfold written. simpl. by rewrite <- !app_assoc.
Qed.

(** X20: a stale Range header after the fallback.  With [N > 0] bytes on
    disk, when the ranged request is answered 416 or 200, the plain request
    that follows cannot start a transfer, and the next attempt's request,
    which still carries [Range: bytes=N-], is answered 206 with the bytes
    from [N] on, then [initial_pos] is 0 by that time: the file is opened
    in truncate-write mode, the size check passes and [download_file]
    returns [True] with only the bytes from [N] on in the file. *)
Theorem download_file_stale_range_truncates url destination max_retries w
    old r1 r3 :
  (1 < max_retries)%Z →
  fs w !! destination = Some old →
  old ≠ [] →
  let range := Some (Z.of_nat (length old)) in
  serve (sent w) (Request url range) = Ok r1 →
  status_code r1 = 416%Z ∨ status_code r1 = 200%Z →
  rejected (serve (S (sent w)) (Request url None)) →
  serve (S (S (sent w))) (Request url range) = Ok r3 →
  status_code r3 = 206%Z →
  resp_content_length r3
  = CLInt (Z.of_nat (length (mjoin (resp_chunks r3)))) →
  resp_stream_error r3 = None →
  ∃ w',
    download_file url destination max_retries w = (Ok true, w') ∧
    events_since w w'
    = [Call_download_file url destination;
       Get (Request url range); Get (Request url None);
       Sleep 1;
       Get (Request url range); Open destination WB] ∧
    fs w' !! destination = Some (mjoin (resp_chunks r3)).
Proof.
  intros Hmax Hfile Hold range Hserve1 Hstatus1 Hrej Hserve3 Hstatus3 Hcl3 Hend3.
  rewrite download_file_unfold, Hfile. cbv zeta. fold range.
  destruct (Z.to_nat max_retries) as [|[|n]] eqn:Hn; [lia|lia|].
  rewrite attempts_step.
  set (w0 := {| fs := fs w; sent := sent w;
                trace := trace w ++ [Call_download_file url destination] |}).
  set (w2 := {| fs := fs w; sent := S (S (sent w));
                trace := ((trace w ++ [Call_download_file url destination])
                          ++ [Get (Request url range)])
                         ++ [Get (Request url None)] |}).
  assert (∃ e, attempt url destination range (Z.of_nat (length old)) w0
               = (Raise e, 0%Z, w2) ∧ is_Exception e = true)
    as (e & -> & ->).
  { unfold attempt, negotiate, requests_get. simpl. rewrite Hserve1.
    assert (range_rejected r1 (Z.of_nat (length old)) = true) as ->.
    { unfold range_rejected.
      assert ((0 <? Z.of_nat (length old))%Z = true) as ->
        by (apply Z.ltb_lt; destruct old; [done|simpl; lia]).
      destruct Hstatus1 as [-> | ->]; done. }
    destruct (serve (S (sent w)) (Request url None)) as [r2|e];
      simpl in Hrej.
    - destruct (receive_unusable destination r2 0 w2 Hrej) as (e & Hrecv & He).
      exists e. fold w2. by rewrite Hrecv.
    - by exists e. }
  replace (0 <? max_retries - 1)%Z with true
    by (symmetry; apply Z.ltb_lt; lia).
  rewrite attempts_step.
  erewrite attempt_from_zero; [| exact Hserve3 | | by right | done].
  2:{ unfold status_accepted. by rewrite Hstatus3. }
  eexists. split; [done|]. split; [|by rewrite size_on_disk_written].
  apply events_since_app. unfold written. simpl. by rewrite <- !app_assoc.
Qed.

(** ** The orchestrator on an empty listing *)


End Downloader.

(** * The properties on the scenarios *)

(** ** Retries and the resume offset *)

(** C1 on the code: [model.bin] has 4 of its 10 bytes on disk and the first
    transfer is cut after 3 more.  The file then has 7 bytes, but the second
    and third attempts again ask for [bytes=4-] and append what they get:
    every later attempt fails the size check, the call returns [False] and
    leaves 19 bytes on disk. *)
Theorem retry_keeps_stale_offset :
  let started :=
    {| fs := fs partial_world; sent := 0;
       trace := [Call_download_file model_url model_path] |} in
  let first := attempt flaky_server model_url model_path (Some 4%Z) 4%Z started in
  let call := download_file flaky_server model_url model_path 3 partial_world in
  first.1 = (Raise RequestException, 4%Z) ∧
  size_on_disk first.2 model_path = 7%Z ∧
  call.1 = Ok false ∧
  events_since partial_world call.2
  = [Call_download_file model_url model_path;
     Get (Request model_url (Some 4%Z)); Open model_path AB; Sleep 1;
     Get (Request model_url (Some 4%Z)); Open model_path AB; Sleep 2;
     Get (Request model_url (Some 4%Z)); Open model_path AB] ∧
  size_on_disk call.2 model_path = 19%Z.
Proof. repeat split; vm_compute; reflexivity. Qed.

(** ** Partial files and the orchestrator *)

(** C2 on the code: a first run in which every transfer is cut fails and
    leaves 3 of the 10 bytes of [model.bin] on disk.  The next run, against
    a server that works, only prints that the file exists: the process exits
    with 0, the fetcher is not called and the file keeps its 3 bytes,
    although a call of [download_file] would have completed it. *)
Theorem partial_file_counted_as_present :
  let first := main cutting_server posix_join no_files in
  let second := main mirror_server posix_join first.2 in
  let fetch := download_file mirror_server model_url model_path 3 first.2 in
  first.1 = 1%Z ∧
  fs first.2 !! posix_join "model.bin" = Some (take 3 remote_file) ∧
  second.1 = 0%Z ∧
  events_since first.2 second.2
  = [Get (Request MODELSCOPE_API None); Print (MsgSkipped "model.bin")] ∧
  fs second.2 !! posix_join "model.bin" = Some (take 3 remote_file) ∧
  fetch.1 = Ok true ∧
  fs fetch.2 !! model_path = Some remote_file.
Proof. repeat split; vm_compute; reflexivity. Qed.

(** ** Skipping what is there *)

Lemma download_models_idempotent_witness :
  let w1 := (download_models mirror_server posix_join no_files).2 in
  ∃ w2,
    download_models mirror_server posix_join w1 = (Ok true, w2) ∧
    fs w2 = fs w1 ∧
    Forall idle_event (events_since w1 w2).
Proof.
  apply (proj2 (proj2 (download_models_idempotent mirror_server posix_join))
           no_files _ [JStr "model.bin"]
           (get_file_list mirror_server no_files).2
           (get_file_list mirror_server
              (download_models mirror_server posix_join no_files).2).2);
    vm_compute; reflexivity.
Defined.

(** ** The file lister *)

(** The claim C4 as stated fails when the operator interrupts the listing
    request: [get_file_list] then raises to its caller. *)
Lemma get_file_list_raises_interrupt :
  ∃ w', get_file_list interrupted_server no_files
        = (Raise KeyboardInterrupt, w').
Proof. eexists. vm_compute. reflexivity. Qed.

Lemma get_file_list_all_or_nothing_witness :
  length REQUIRED_FILES = 10 ∧
  match get_file_list mirror_server no_files with
  | (Raise e, _) => e = KeyboardInterrupt
  | (Ok files, _) =>
      files = JStr <$> REQUIRED_FILES ∨
      ∃ r fields items,
        mirror_server (sent no_files) (Request MODELSCOPE_API None) = Ok r ∧
        status_code r = 200%Z ∧
        resp_json r = Ok (JObj fields) ∧
        assoc "Data" fields = Some (JArr items) ∧
        paths_of items = Ok files ∧
        ∀ p, p ∈ files →
             ∃ item, item ∈ items ∧ py_getitem item "Path" = Ok p
  end.
Proof. exact (get_file_list_all_or_nothing mirror_server no_files). Defined.

(** The two outcomes on the scenarios: the remote paths, or the default
    list when the request fails. *)
Example get_file_list_outcomes :
  (get_file_list mirror_server no_files).1 = Ok [JStr "model.bin"] ∧
  (get_file_list failing_server no_files).1 = Ok (JStr <$> REQUIRED_FILES).
Proof. split; vm_compute; reflexivity. Qed.

(** ** Backoff *)

Lemma backoff_sleeps_three_seconds_witness :
  let w' := (download_file failing_server model_url model_path 3 no_files).2 in
  ∃ a0 a1 a2,
    is_attempt model_url model_path a0 ∧
    is_attempt model_url model_path a1 ∧
    is_attempt model_url model_path a2 ∧
    events_since no_files w'
    = Call_download_file model_url model_path
      :: a0 ++ Sleep (2 ^ 0) :: a1 ++ Sleep (2 ^ 1) :: a2 ∧
    filter (λ e, is_sleep e = true) (events_since no_files w')
    = [Sleep 1; Sleep 2] ∧
    slept (events_since no_files w') = 3%Z.
Proof.
  apply (backoff_sleeps_three_seconds failing_server model_url model_path
           no_files).
  vm_compute. reflexivity.
Defined.

(** ** Range fallback *)

Lemma range_rejected_rewrites_witness :
  ∃ res w',
    attempt ignoring_server model_url model_path (Some 4%Z) 4%Z partial_world
    = (res, 0%Z, w') ∧
    (Open model_path AB ∉ events_since partial_world w') ∧
    fs w' !! model_path = Some remote_file.
Proof.
  destruct (range_rejected_rewrites ignoring_server model_url model_path 4%Z
              partial_world (serve_range remote_file (Request model_url None)))
    as (res & w' & Hrun & Hmode & Hrest).
  - lia.
  - reflexivity.
  - right. reflexivity.
  - exists res, w'. split; [exact Hrun|]. split; [exact Hmode|].
    simpl in Hrest. exact (proj2 (proj2 Hrest)).
Defined.

(** ** Integrity check *)



(** ** Resuming *)

Lemma resume_completes_witness :
  ∃ w',
    download_file range_server model_url model_path 3 partial_world
    = (Ok true, w') ∧
    fs w' !! model_path = Some remote_file.
Proof.
  destruct (resume_completes range_server model_url model_path 3 partial_world
              (take 4 remote_file)
              (serve_range remote_file (Request model_url (Some 4%Z)))
              4%Z 10%Z)
    as (w' & Hrun & _ & _ & _ & _ & Hfull);
    try (vm_compute; reflexivity).
  exists w'. split; [exact Hrun|]. apply Hfull; reflexivity.
Defined.

(** ** Accounting *)

Lemma download_models_accounting_witness :
  let t := {| success_count := 1; failed_files := [JStr "b.bin"] |} in
  success_count t + length (failed_files t) = 2 ∧
  download_models example_server posix_join example_world
  = (Ok false, (download_models example_server posix_join example_world).2).
Proof.
  apply (download_models_accounting example_server posix_join example_world
           [JStr "a.json"; JStr "b.bin"]
           (get_file_list example_server example_world).2
           {| success_count := 1; failed_files := [JStr "b.bin"] |});
    vm_compute; reflexivity.
Defined.

(** * The further properties on the scenarios *)

(** ** The file lister *)

Lemma get_file_list_falls_back_witness :
  (get_file_list not_found_server no_files).1 = Ok (JStr <$> REQUIRED_FILES).
Proof.
  apply (get_file_list_falls_back not_found_server no_files).
  left. vm_compute. discriminate.
Defined.

Lemma get_file_list_remote_paths_witness :
  (get_file_list gappy_listing_server no_files).1
  = Ok [JStr "a.json"; JStr "b.bin"].
Proof.
  apply (get_file_list_remote_paths gappy_listing_server no_files
           {| status_code := 200;
              resp_content_length := CLAbsent;
              resp_json :=
                Ok (JObj [("Data", JArr [JObj [("Path", JStr "a.json")];
                                         JObj [("Name", JStr "notes")];
                                         JObj [("Path", JStr "b.bin")]])]);
              resp_chunks := [];
              resp_stream_error := None |}
           [("Data", JArr [JObj [("Path", JStr "a.json")];
                           JObj [("Name", JStr "notes")];
                           JObj [("Path", JStr "b.bin")]])]
           [JObj [("Path", JStr "a.json")];
            JObj [("Name", JStr "notes")];
            JObj [("Path", JStr "b.bin")]]);
    reflexivity.
Defined.

Lemma get_file_list_scalar_item_witness :
  (get_file_list spoiled_listing_server no_files).1
  = Ok (JStr <$> REQUIRED_FILES).
Proof.
  apply (get_file_list_scalar_item spoiled_listing_server no_files
           {| status_code := 200;
              resp_content_length := CLAbsent;
              resp_json :=
                Ok (JObj [("Data", JArr [JObj [("Path", JStr "a.json")];
                                         JNum 7])]);
              resp_chunks := [];
              resp_stream_error := None |}
           [("Data", JArr [JObj [("Path", JStr "a.json")]; JNum 7])]
           [JObj [("Path", JStr "a.json")]; JNum 7]);
    reflexivity.
Defined.

(** ** The fetcher *)


Lemma download_file_fresh_witness :
  ∃ w',
    download_file range_server model_url model_path 3 no_files = (Ok true, w') ∧
    events_since no_files w' = [Call_download_file model_url model_path;
                                Get (Request model_url None);
                                Open model_path WB] ∧
    fs w' !! model_path = Some remote_file.
Proof.
  apply (download_file_fresh range_server model_url model_path 3 no_files
           (serve_range remote_file (Request model_url None)));
    first [reflexivity | right; reflexivity].
Defined.

Lemma download_file_empty_destination_witness :
  ∃ w',
    download_file range_server model_url model_path 3 empty_file_world
    = (Ok true, w') ∧
    events_since empty_file_world w'
    = [Call_download_file model_url model_path;
       Get (Request model_url (Some 0%Z));
       Open model_path WB] ∧
    fs w' !! model_path = Some remote_file.
Proof.
  apply (download_file_empty_destination range_server model_url model_path 3
           empty_file_world
           (serve_range remote_file (Request model_url (Some 0%Z))));
    first [reflexivity | right; reflexivity].
Defined.

Lemma download_file_retry_starts_over_witness :
  ∃ w',
    download_file flaky_server model_url model_path 3 no_files = (Ok true, w') ∧
    events_since no_files w'
    = [Call_download_file model_url model_path;
       Get (Request model_url None); Open model_path WB;
       Sleep 1;
       Get (Request model_url None); Open model_path WB] ∧
    fs w' !! model_path = Some remote_file.
Proof.
  apply (download_file_retry_starts_over flaky_server model_url model_path 3
           no_files
           (cut 3 (serve_range remote_file (Request model_url None)))
           RequestException
           (serve_range remote_file (Request model_url None)));
    first [reflexivity | right; reflexivity].
Defined.

Lemma download_file_backoff_witness :
  let w' := (download_file failing_server model_url model_path 5 no_files).2 in
  sleeps (events_since no_files w')
  = (λ i, 2 ^ i)%Z <$> seqZ 0 (5 - 1) ∧
  ((1 ≤ 5)%Z → slept (events_since no_files w') = (2 ^ (5 - 1) - 1)%Z).
Proof.
  apply (download_file_backoff failing_server model_url model_path 5 no_files).
  vm_compute. reflexivity.
Defined.

(** On that run the sleeps are 1, 2, 4 and 8 seconds. *)
Example download_file_backoff_five :
  sleeps (events_since no_files
            (download_file failing_server model_url model_path 5 no_files).2)
  = [1; 2; 4; 8]%Z.
Proof. vm_compute. reflexivity. Qed.

(** ** The orchestrator *)

Lemma run_request_bound_witness :
  (sent (download_models example_server posix_join example_world).2
   ≤ sent example_world + 1 + 6 * 2)%nat.
Proof.
  apply (run_request_bound example_server posix_join example_world
           [JStr "a.json"; JStr "b.bin"]
           (get_file_list example_server example_world).2).
  vm_compute. reflexivity.
Defined.

Lemma failed_files_in_listing_order_witness :
  let file_list := [JStr "a.json"; JStr "b.bin"] in
  let w := (get_file_list example_server example_world).2 in
  let run := download_loop example_server posix_join file_list (Tally 0 []) w in
  ∃ ds,
    dispositions example_server posix_join file_list w = (Ok ds, run.2) ∧
    failed_files {| success_count := 1; failed_files := [JStr "b.bin"] |}
    = failures file_list ds ∧
    success_count {| success_count := 1; failed_files := [JStr "b.bin"] |}
    = length file_list - length (failures file_list ds).
Proof.
  apply (failed_files_in_listing_order example_server posix_join
           [JStr "a.json"; JStr "b.bin"]
           (get_file_list example_server example_world).2
           {| success_count := 1; failed_files := [JStr "b.bin"] |}).
  vm_compute. reflexivity.
Defined.

Lemma listed_twice_fetched_once_witness :
  let file_list := [JStr "model.bin"; JStr "model.bin"] in
  let w := (get_file_list twice_server no_files).2 in
  (dispositions twice_server posix_join file_list w).1
  = Ok [Fetched; Present] ∧
  [Fetched; Present] !! 1 = Some Present.
Proof.
  split; [vm_compute; reflexivity|].
  apply (listed_twice_fetched_once twice_server posix_join
           [JStr "model.bin"; JStr "model.bin"]
           (get_file_list twice_server no_files).2
           [Fetched; Present]
           (dispositions twice_server posix_join
              [JStr "model.bin"; JStr "model.bin"]
              (get_file_list twice_server no_files).2).2
           0 1 "model.bin" Fetched);
    first [lia | vm_compute; reflexivity].
Defined.

Lemma exit_zero_all_on_disk_witness :
  let w' := (main mirror_server posix_join no_files).2 in
  ∃ file_list wl,
    get_file_list mirror_server no_files = (Ok file_list, wl) ∧
    ∀ filename, filename ∈ file_list →
      ∃ name, filename = JStr name ∧
              is_Some (fs w' !! posix_join name).
Proof.
  apply (exit_zero_all_on_disk mirror_server posix_join no_files).
  vm_compute. reflexivity.
Defined.

Lemma download_file_fallback_completes_witness :
  ∃ w',
    download_file ignoring_server model_url model_path 3 partial_world
    = (Ok true, w') ∧
    events_since partial_world w'
    = [Call_download_file model_url model_path;
       Get (Request model_url (Some 4%Z));
       Get (Request model_url None);
       Open model_path WB] ∧
    fs w' !! model_path = Some remote_file.
Proof.
  apply (download_file_fallback_completes ignoring_server model_url model_path
           3 partial_world (take 4 remote_file)
           (serve_range remote_file (Request model_url None))
           (serve_range remote_file (Request model_url None)));
    first [reflexivity | discriminate | right; reflexivity].
Defined.

Lemma download_file_stale_range_truncates_witness :
  ∃ w',
    download_file moody_server model_url model_path 3 partial_world
    = (Ok true, w') ∧
    events_since partial_world w'
    = [Call_download_file model_url model_path;
       Get (Request model_url (Some 4%Z)); Get (Request model_url None);
       Sleep 1;
       Get (Request model_url (Some 4%Z)); Open model_path WB] ∧
    fs w' !! model_path = Some (drop 4 remote_file).
Proof.
  apply (download_file_stale_range_truncates moody_server model_url model_path
           3 partial_world (take 4 remote_file)
           {| status_code := 416;
              resp_content_length := CLInt 0;
              resp_json := Raise JSONDecodeError;
              resp_chunks := [];
              resp_stream_error := None |}
           (serve_range remote_file (Request model_url (Some 4%Z))));
    first [reflexivity | discriminate | left; reflexivity].
Defined.


(** * The script on any disk *)

Section OsProperties.

Context {D : Type}.

Variable serve : nat → request → result response.
Variable models_dir_join : string → path.
Variable os : Os.calls D.

Set Default Proof Using "Type".

(** ** Running a bind *)

Lemma os_bind_Ok {A B} (c : Os.M D A) (f : A → Os.M D B) w a w1 :
  c w = (Ok a, w1) → (c ≫= f) w = f a w1.
Proof. intros Hc. unfold mbind, Os.M_bind. by rewrite Hc. Qed.

Lemma os_bind_Raise {A B} (c : Os.M D A) (f : A → Os.M D B) w e w1 :
  c w = (Raise e, w1) → (c ≫= f) w = (Raise e, w1).
Proof. intros Hc. unfold mbind, Os.M_bind. by rewrite Hc. Qed.

(** ** The loop and the pass *)

Lemma os_download_loop_dispositions file_list : ∀ t w,
  match Os.dispositions serve models_dir_join os file_list w with
  | (Ok ds, w') =>
      ∃ t', Os.download_loop serve models_dir_join os file_list t w
            = (Ok t', w') ∧
            (failed_files t' = [] ↔
             failed_files t = [] ∧ Forall (λ d, succeeded d = true) ds)
  | (Raise e, w') =>
      Os.download_loop serve models_dir_join os file_list t w = (Raise e, w')
  end.
Proof.
  induction file_list as [|filename rest IH]; intros t w.
  - simpl. exists t. split; [done|]. split; [done|]. by intros [? _].
  - cbn [Os.dispositions Os.download_loop].
    destruct (Os.process serve models_dir_join os filename w)
      as [[d|e] w1] eqn:Hp.
    2:{ by rewrite !(os_bind_Raise _ _ _ _ _ Hp). }
    rewrite !(os_bind_Ok _ _ _ _ _ Hp).
    specialize (IH (count t filename d) w1).
    destruct (Os.dispositions serve models_dir_join os rest w1)
      as [[ds|e] w2] eqn:Hrest.
    2:{ by rewrite (os_bind_Raise _ _ _ _ _ Hrest). }
    rewrite (os_bind_Ok _ _ _ _ _ Hrest). unfold mret, Os.M_ret.
    destruct IH as (t' & Hloop & Hfailed).
    exists t'. split; [done|].
    rewrite Hfailed, Forall_cons. destruct d; simpl.
    + split; [by intros [? ?]|by intros [? [_ ?]]].
    + split; [by intros [? ?]|by intros [? [_ ?]]].
    + split; [|by intros [_ [[=] _]]].
      intros [Hnil _]. by apply app_eq_nil in Hnil as [_ ?].
Qed.

Lemma os_forallb_succeeded ds :
  forallb succeeded ds = true ↔ Forall (λ d, d = Present ∨ d = Fetched) ds.
Proof.
  induction ds as [|d ds IH]; [by split|].
  cbn [forallb]. rewrite andb_true_iff, Forall_cons, IH.
  destruct d; simpl.
  - split; intros [_ ?]; auto.
  - split; intros [_ ?]; auto.
  - split; [by intros [? _]|by intros [[?|?] _]].
Qed.

(** [download_models] in terms of the pass over the files. *)
Lemma os_download_models_dispositions w :
  Os.download_models serve models_dir_join os w =
  match Os.call (Os.mkdir_models os) w with
  | (Raise e, w0) => (Raise e, w0)
  | (Ok _, w0) =>
      match Os.get_file_list serve w0 with
      | (Raise e, wl) => (Raise e, wl)
      | (Ok file_list, wl) =>
          match Os.dispositions serve models_dir_join os file_list wl with
          | (Ok ds, w') => (Ok (forallb succeeded ds), w')
          | (Raise e, w') => (Raise e, w')
          end
      end
  end.
Proof.
  unfold Os.download_models.
  destruct (Os.call (Os.mkdir_models os) w) as [[u|e] w0] eqn:Hmk.
  2:{ by rewrite (os_bind_Raise _ _ _ _ _ Hmk). }
  rewrite (os_bind_Ok _ _ _ _ _ Hmk).
  destruct (Os.get_file_list serve w0) as [[file_list|e] wl] eqn:Hlist.
  2:{ by rewrite (os_bind_Raise _ _ _ _ _ Hlist). }
  rewrite (os_bind_Ok _ _ _ _ _ Hlist).
  pose proof (os_download_loop_dispositions file_list (Tally 0 []) wl) as Hloop.
  destruct (Os.dispositions serve models_dir_join os file_list wl)
    as [[ds|e] w'].
  2:{ by rewrite (os_bind_Raise _ _ _ _ _ Hloop). }
  destruct Hloop as (t & Hloop & Hfailed).
  rewrite (os_bind_Ok _ _ _ _ _ Hloop).
  destruct (forallb succeeded ds) eqn:Hall.
  - assert (failed_files t = []) as ->; [|done].
    apply Hfailed. split; [done|].
    apply os_forallb_succeeded in Hall.
    eapply Forall_impl; [done|]. by intros d [-> | ->].
  - destruct (failed_files t) eqn:Hff; [|done].
    destruct Hfailed as [Hfailed _]. destruct (Hfailed eq_refl) as [_ Hds].
    assert (forallb succeeded ds = true); [|congruence].
    apply os_forallb_succeeded. eapply Forall_impl; [done|].
    intros []; simpl; auto. done.
Qed.

(** ** The exit code *)

(** C9: the exit code is 0 or 1, and it is the result of
    [download_models]: 0 for [True], 1 for [False].  Once the directory is
    there and the listing obtained, a completed pass over the list exits
    with 0 if and only if every file was either already present or fetched,
    and with 1 as soon as one file failed; exit code 0 arises in no other
    way.  A [KeyboardInterrupt] that reaches the top level prints the
    cancellation message and exits with 1; any other exception that reaches
    it, from the disk or from a listed path that is no string, prints the
    error message and exits with 1. *)
Theorem exit_code w :
  let '(code, w') := Os.main serve models_dir_join os w in
  (code = 0%Z ∨ code = 1%Z) ∧
  (∀ success w2,
     Os.download_models serve models_dir_join os w = (Ok success, w2) →
     code = (if success : bool then 0 else 1)%Z ∧ w' = w2) ∧
  (∀ w0 file_list wl ds w2,
     Os.call (Os.mkdir_models os) w = (Ok tt, w0) →
     Os.get_file_list serve w0 = (Ok file_list, wl) →
     Os.dispositions serve models_dir_join os file_list wl = (Ok ds, w2) →
     (code = 0%Z ↔ Forall (λ d, d = Present ∨ d = Fetched) ds) ∧
     (Failed ∈ ds → code = 1%Z) ∧
     w' = w2) ∧
  (code = 0%Z →
   ∃ w0 file_list wl ds,
     Os.call (Os.mkdir_models os) w = (Ok tt, w0) ∧
     Os.get_file_list serve w0 = (Ok file_list, wl) ∧
     Os.dispositions serve models_dir_join os file_list wl = (Ok ds, w') ∧
     Forall (λ d, d = Present ∨ d = Fetched) ds) ∧
  (∀ w2,
     Os.download_models serve models_dir_join os w
     = (Raise KeyboardInterrupt, w2) →
     code = 1%Z ∧
     w' = {| Os.disk := Os.disk w2; Os.sent := Os.sent w2;
             Os.trace := Os.trace w2 ++ [Print MsgCancelled] |}) ∧
  (∀ e w2,
     Os.download_models serve models_dir_join os w = (Raise e, w2) →
     is_Exception e = true →
     code = 1%Z ∧
     w' = {| Os.disk := Os.disk w2; Os.sent := Os.sent w2;
             Os.trace := Os.trace w2 ++ [Print (MsgErrorOccurred e)] |}).
Proof.
  pose proof (os_download_models_dispositions w) as Hdm.
  unfold Os.main.
  destruct (Os.download_models serve models_dir_join os w)
    as [[success|e] w1] eqn:Hrun.
  - split; [destruct success; auto|].
    split; [by intros s w2 [= <- <-]|].
    split; [|split; [|split; by intros]].
    + intros w0 file_list wl ds w2 Hmk Hlist Hds.
      rewrite Hmk, Hlist, Hds in Hdm. injection Hdm as -> ->.
      rewrite <- os_forallb_succeeded.
      split; [by destruct (forallb succeeded ds)|]. split; [|done].
      intros Hfailed. destruct (forallb succeeded ds) eqn:Hall; [|done].
      apply os_forallb_succeeded in Hall.
      destruct (proj1 (Forall_forall _ _) Hall Failed Hfailed); done.
    + intros Hcode.
      destruct (Os.call (Os.mkdir_models os) w) as [[[]|e] w0] eqn:Hmk;
        [|done].
      destruct (Os.get_file_list serve w0) as [[file_list|e] wl] eqn:Hlist;
        [|done].
      destruct (Os.dispositions serve models_dir_join os file_list wl)
        as [[ds|e] w2] eqn:Hds; [|done].
      injection Hdm as -> ->. exists w0, file_list, wl, ds.
      split; [done|]. split; [done|]. split; [done|].
      apply os_forallb_succeeded. by destruct (forallb succeeded ds).
  - assert (Hno : ∀ w0 file_list wl ds w2,
              Os.call (Os.mkdir_models os) w = (Ok tt, w0) →
              Os.get_file_list serve w0 = (Ok file_list, wl) →
              Os.dispositions serve models_dir_join os file_list wl
              = (Ok ds, w2) → False).
    { intros w0 fl wl ds w2 Hmk Hlist Hds. by rewrite Hmk, Hlist, Hds in Hdm. }
    destruct e; cbn beta iota zeta.
    all: split; [by right|].
    all: split; [done|].
    all: split; [intros w0 fl wl ds w2 Hmk Hlist Hds;
                 destruct (Hno w0 fl wl ds w2 Hmk Hlist Hds)|].
    all: split; [done|].
    all: split; [by intros w2 [= <-] | by intros e' w2 [= <- <-] He].
Qed.

(** ** What can leave [download_file] *)








(** ** Replies that cannot start a transfer, on any disk *)





(** ** What can leave [download_models] *)





End OsProperties.

(** * The plain disk

    The script of section [Downloader] is the script over the calls of the
    operating system, run on the plain disk. *)

Section PlainDisk.

Variable serve : nat → request → result response.
Variable models_dir_join : string → path.

Set Default Proof Using "Type".

Lemma same_run_ret {A} (a : A) : same_run (mret a) (mret a).
Proof. by intros w. Qed.

Lemma same_run_bind {A B} c c' (f : A → Os.M _ B) (f' : A → M B) :
  same_run c c' → (∀ a, same_run (f a) (f' a)) →
  same_run (c ≫= f) (c' ≫= f').
Proof.
  intros Hc Hf w. unfold mbind, Os.M_bind, M_bind. rewrite Hc.
  destruct (c' w) as [[a|e] w1]; [apply Hf|done].
Qed.

Lemma same_run_raise {A} e : same_run (@Os.raise _ A e) (raise e).
Proof. by intros w. Qed.

Lemma same_run_lift {A} (r : result A) : same_run (Os.lift r) (lift r).
Proof. by intros w. Qed.

Lemma same_run_emit e : same_run (Os.emit e) (emit e).
Proof. by intros w. Qed.

Lemma same_run_requests_get r :
  same_run (Os.requests_get serve r) (requests_get serve r).
Proof. by intros w. Qed.

Lemma same_run_try_except {A} c c' (h : exn → Os.M _ A) (h' : exn → M A) :
  same_run c c' → (∀ e, same_run (h e) (h' e)) →
  same_run (Os.try_except c h) (try_except c' h').
Proof.
  intros Hc Hh w. unfold Os.try_except, try_except. rewrite Hc.
  destruct (c' w) as [[a|e] w1]; [done|].
  destruct (is_Exception e); [apply Hh|done].
Qed.

Lemma same_run_get_file_list :
  same_run (Os.get_file_list serve) (get_file_list serve).
Proof.
  apply same_run_try_except; [|intros; apply same_run_ret].
  apply same_run_bind; [apply same_run_requests_get|]. intros r.
  destruct (status_code r =? 200)%Z; [|apply same_run_ret].
  apply same_run_bind; [apply same_run_lift|]. intros data.
  apply same_run_bind; [apply same_run_lift|]. intros [|];
    [|apply same_run_ret].
  apply same_run_bind; [apply same_run_lift|].
  intros []; first [apply same_run_ret | apply same_run_lift].
Qed.

Lemma same_run_write_chunks p chunks :
  same_run (Os.write_chunks plain p chunks) (write_chunks p chunks).
Proof.
  induction chunks as [|chunk rest IH]; [apply same_run_ret|].
  cbn [Os.write_chunks write_chunks].
  apply same_run_bind; [|by intros].
  destruct chunk; [apply same_run_ret|by intros w].
Qed.

Lemma same_run_stream_to_file destination m r :
  same_run (Os.stream_to_file plain destination m r)
           (stream_to_file destination m r).
Proof.
  assert (∀ a : (),
            same_run ((λ _, match resp_stream_error r with
                            | Some e => Os.raise e
                            | None => mret ()
                            end) a)
                     ((λ _, match resp_stream_error r with
                            | Some e => raise e
                            | None => mret ()
                            end) a)) as Hend.
  { intros []. destruct (resp_stream_error r);
      [apply same_run_raise|apply same_run_ret]. }
  intros w. unfold Os.stream_to_file, stream_to_file.
  exact (same_run_bind _ _ _ _
           (same_run_write_chunks destination (resp_chunks r)) Hend
           (open_file destination m w).2).
Qed.

Lemma same_run_check_size destination total_size :
  same_run (Os.check_size plain destination total_size)
           (check_size destination total_size).
Proof.
  unfold Os.check_size, check_size.
  destruct (0 <? total_size)%Z; [|apply same_run_ret].
  apply same_run_bind.
  - intros w. unfold Os.look, st_size. simpl. by destruct (fs w !! destination).
  - intros size. destruct (negb _); [apply same_run_raise|apply same_run_ret].
Qed.

Lemma same_run_receive destination r initial_pos :
  same_run (Os.receive plain destination r initial_pos)
           (receive destination r initial_pos).
Proof.
  unfold Os.receive, receive.
  apply same_run_bind.
  { destruct (negb _); [apply same_run_raise|apply same_run_ret]. }
  intros _. apply same_run_bind; [apply same_run_lift|]. intros total_size.
  apply same_run_bind; [apply same_run_stream_to_file|]. intros _.
  apply same_run_check_size.
Qed.

Lemma same_run_attempt url destination resume_header initial_pos w :
  Os.attempt serve plain url destination resume_header initial_pos (to_os w)
  = let '(r, ip, w') :=
      attempt serve url destination resume_header initial_pos w in
    (r, ip, to_os w').
Proof.
  unfold Os.attempt, attempt, Os.negotiate, negotiate.
  rewrite (same_run_requests_get _ w).
  destruct (requests_get serve _ w) as [[r|e] w1]; [|done].
  destruct (range_rejected r initial_pos).
  - rewrite (same_run_requests_get _ w1).
    destruct (requests_get serve _ w1) as [[r'|e] w2]; [|done].
    rewrite (same_run_receive _ _ _ w2).
    by destruct (receive destination r' 0 w2).
  - rewrite (same_run_receive _ _ _ w1).
    by destruct (receive destination r initial_pos w1).
Qed.

Lemma same_run_attempts url destination resume_header max_retries n :
  ∀ index initial_pos,
    same_run (Os.attempts serve plain url destination resume_header
                max_retries n index initial_pos)
             (attempts serve url destination resume_header
                max_retries n index initial_pos).
Proof.
  induction n as [|n IH]; intros index initial_pos w; [done|].
  cbn [Os.attempts attempts]. rewrite same_run_attempt.
  destruct (attempt serve url destination resume_header initial_pos w)
    as [[[b|e] ip] w1]; [done|].
  destruct (is_Exception e); [|done].
  destruct (index <? max_retries - 1)%Z; [|done].
  apply (same_run_bind _ _ _ _ (same_run_emit _) (λ _, IH _ _)).
Qed.

Lemma same_run_download_file url destination max_retries :
  same_run (Os.download_file serve plain url destination max_retries)
           (download_file serve url destination max_retries).
Proof.
  intros w.
  unfold Os.download_file, download_file, Os.prepare, Os.emit, emit, Os.call,
    Os.look, path_exists, st_size, mbind, Os.M_bind, M_bind, mret, Os.M_ret,
    M_ret.
  simpl. destruct (fs w !! destination) as [content|] eqn:Hd; simpl;
    rewrite ?Hd; simpl.
  all: exact (same_run_attempts _ _ _ _ _ _ _
                {| fs := fs w; sent := sent w;
                   trace := trace w ++ [Call_download_file url destination] |}).
Qed.

Lemma same_run_process filename :
  same_run (Os.process serve models_dir_join plain filename)
           (process serve models_dir_join filename).
Proof.
  destruct filename as [| | |name| |]; try apply same_run_raise.
  unfold Os.process, process.
  apply same_run_bind; [by intros w|]. intros [|].
  - apply same_run_bind; [apply same_run_emit|]. intros _. apply same_run_ret.
  - apply same_run_bind; [apply same_run_download_file|]. intros [|].
    + apply same_run_bind; [apply same_run_emit|]. intros _.
      apply same_run_ret.
    + apply same_run_ret.
Qed.

Lemma same_run_download_loop file_list : ∀ t,
  same_run (Os.download_loop serve models_dir_join plain file_list t)
           (download_loop serve models_dir_join file_list t).
Proof.
  induction file_list as [|filename rest IH]; intros t;
    [apply same_run_ret|].
  cbn [Os.download_loop download_loop].
  apply same_run_bind; [apply same_run_process|]. intros d. apply IH.
Qed.

Lemma same_run_download_models :
  same_run (Os.download_models serve models_dir_join plain)
           (download_models serve models_dir_join).
Proof.
  unfold Os.download_models, download_models.
  intros w. unfold mbind at 1, Os.M_bind at 1. simpl.
  revert w. change (same_run
    (Os.get_file_list serve ≫= λ file_list,
       Os.download_loop serve models_dir_join plain file_list (Tally 0 [])
       ≫= λ t, match failed_files t with
               | [] => mret true
               | _ => mret false
               end)
    (get_file_list serve ≫= λ file_list,
       download_loop serve models_dir_join file_list (Tally 0 [])
       ≫= λ t, match failed_files t with
               | [] => mret true
               | _ => mret false
               end)).
  apply same_run_bind; [apply same_run_get_file_list|]. intros file_list.
  apply same_run_bind; [apply same_run_download_loop|]. intros t.
  destruct (failed_files t); apply same_run_ret.
Qed.

(** The whole script on the plain disk: the same exit code, the same
    requests, sleeps and messages, the same files. *)
Theorem plain_disk_run w :
  Os.main serve models_dir_join plain (to_os w)
  = let '(code, w') := main serve models_dir_join w in (code, to_os w').
Proof.
  unfold Os.main, main. rewrite same_run_download_models.
  destruct (download_models serve models_dir_join w) as [[b|e] w1]; [done|].
  by destruct e.
Qed.

End PlainDisk.

(** * The script on any disk, on the scenarios *)


(** A mirror that serves every listed file: the pass completes with the
    one file fetched, and the exit code is 0. *)
Lemma exit_code_witness :
  let '(code, w') := Os.main mirror_server posix_join plain (to_os no_files) in
  (code = 0%Z ↔ Forall (λ d, d = Present ∨ d = Fetched) [Fetched]) ∧
  (Failed ∈ [Fetched] → code = 1%Z) ∧
  w' = (Os.dispositions mirror_server posix_join plain [JStr "model.bin"]
          (Os.get_file_list mirror_server (to_os no_files)).2).2.
Proof.
  pose proof (exit_code mirror_server posix_join plain (to_os no_files))
    as Hmain.
  destruct (Os.main mirror_server posix_join plain (to_os no_files))
    as [code w'].
  destruct Hmain as (_ & _ & Hpass & _).
  apply (Hpass (to_os no_files) [JStr "model.bin"]
           (Os.get_file_list mirror_server (to_os no_files)).2
           [Fetched]
           (Os.dispositions mirror_server posix_join plain [JStr "model.bin"]
              (Os.get_file_list mirror_server (to_os no_files)).2).2);
    vm_compute; reflexivity.
Defined.

(** The exit code of that run. *)
Example exit_code_all_fetched :
  (Os.main mirror_server posix_join plain (to_os no_files)).1 = 0%Z.
Proof. vm_compute. reflexivity. Qed.

(** One file of two fails all its attempts: exit code 1. *)
Example exit_code_one_failed :
  Os.dispositions example_server posix_join plain
    [JStr "a.json"; JStr "b.bin"]
    (Os.get_file_list example_server (to_os example_world)).2
  = (Ok [Present; Failed],
     (Os.main example_server posix_join plain (to_os example_world)).2) ∧
  (Os.main example_server posix_join plain (to_os example_world)).1 = 1%Z.
Proof. split; vm_compute; reflexivity. Qed.

(** The listing names [a] and [a/b]: [a] is fetched as a regular file, the
    [mkdir] for [a/b] then raises, and the run ends with the error message
    and exit code 1. *)
Example exit_code_on_mkdir_error :
  let '(code, w') :=
    Os.main nested_server posix_join strict (to_os no_files) in
  code = 1%Z ∧
  is_Some (Os.disk w' !! "models/a") ∧
  Os.disk w' !! "models/a/b" = None ∧
  last (Os.trace w') = Some (Print (MsgErrorOccurred OSError)).
Proof. vm_compute. split; [done|]. split; [by eexists|done]. Qed.

(** An interrupt during the listing request: the cancellation message and
    exit code 1. *)
Example exit_code_on_interrupt :
  Os.main interrupted_server posix_join plain (to_os no_files)
  = (1%Z,
     {| Os.disk := ∅; Os.sent := 1;
        Os.trace := [Get (Request MODELSCOPE_API None);
                     Print MsgCancelled] |}).
Proof. vm_compute. reflexivity. Qed.

(** A listed path that is a number: the error message and exit code 1. *)
Example exit_code_on_type_error :
  let '(code, w') :=
    Os.main odd_listing_server posix_join plain (to_os no_files) in
  code = 1%Z ∧
  last (Os.trace w') = Some (Print (MsgErrorOccurred TypeError)).
Proof. vm_compute. done. Qed.



